(** * OpenLayers.Handler.Geometry: a shallow embedding of [Geometry.js]

    The handler drags out a geometry collection: pointer-down clones the
    template and anchors it at the click, every pointer-move rotates and
    scales the clone about that anchor, pointer-up / pointer-out finalize.

    JavaScript numbers are IEEE-754 binary64 values, here [float].  Objects
    that the handler shares by reference (the template, the working clone,
    the clones handed to callbacks) live in a store addressed by location.
    A JavaScript exception is an explicit outcome that keeps the state
    reached when it was raised.  Everything the handler asks of the host
    library (geometry methods, the sketch layer, Math.atan2) is an
    interface; a reference host for collections of points is given after
    the handler so that the development can be run on concrete drags.

    Calls on the sketch layer and on registered callbacks are host code:
    they are logged in order, with their arguments, and have no effect of
    their own on the handler.  [initialize], [setOptions], [activate] and
    [deactivate] only wire the handler to the host; what they leave behind
    is the [layer] and [callbacks] of the state. *)

From Stdlib Require Import Floats.
From stdpp Require Import base option list strings gmap.

Local Open Scope float_scope.

(** ** Plain host values *)

(** OpenLayers.Pixel, the [xy] of a browser event. *)
Record Pixel := mkPixel { pixel_x : float; pixel_y : float }.

(** OpenLayers.LonLat, a map position. *)
Record LonLat := mkLonLat { lon : float; lat : float }.

(** OpenLayers.Geometry.Point, read by the handler through [.x] and [.y]. *)
Record Point := mkPoint { x : float; y : float }.

(** OpenLayers.Bounds, read through [.left], [.bottom] and [.right]. *)
Record Bounds := mkBounds {
  b_left : float; b_bottom : float; b_right : float; b_top : float }.

(** The browser event: only [evt.xy] is read. *)
Record Event := mkEvent { xy : Pixel }.

(** A location in the store of geometry objects. *)
Definition loc := nat.

(** OpenLayers.Feature.Vector: the wrapper whose [geometry] property
    refers to the working shape. *)
Record Feature := mkFeature { f_geometry : loc }.

(** Values passed in an argument array. *)
Inductive value :=
| VPoint (p : Point)
| VFeature (f : Feature)
| VGeometry (l : loc).

(** Calls made on host objects, in the order the handler makes them. *)
Inductive event :=
| RendererClear                                  (* layer.renderer.clear() *)
| DestroyFeatures                                (* layer.destroyFeatures() *)
| AddFeatures (f : Feature)                      (* layer.addFeatures([f]) *)
| DrawFeature (f : option Feature)               (* layer.drawFeature(f, style) *)
| GeomClone (src dst : loc)                      (* dst = src.clone() *)
| GeomCalculateBounds (l : loc)                  (* l.calculateBounds() *)
| GeomMove (l : loc) (dx dy : float)             (* l.move(dx, dy) *)
| GeomRotate (l : loc) (a : float) (o : Point)   (* l.rotate(a, o) *)
| GeomResize (l : loc) (k : float) (o : Point)   (* l.resize(k, o) *)
| Fire (name : string) (fn : nat) (args : list value).
                                       (* callbacks[name].apply(control, args) *)

Inductive error := TypeError.

(** [Math.PI]. *)
Definition Math_PI : float := 0x1.921fb54442d18p+1.

(** [Math.abs]. *)
Definition Math_abs (v : float) : float := PrimFloat.abs v.

(** ** The host interface

    What [Geometry.js] calls but does not define: the geometry methods
    (on a geometry value [G]), the point constructor and distance, the
    pixel-to-map conversion of the sketch layer (on a layer value
    [Layer]), and [Math.atan2], which ECMAScript leaves to the
    implementation up to its table of boundary cases. *)
Class Host (G Layer : Type) := {
  Math_atan2 : float -> float -> float;
  Point_new : float -> float -> Point;
  Point_distanceTo : Point -> Point -> float;
  geom_clone : G -> G;
  geom_calculateBounds : G -> G;
  geom_bounds : G -> option Bounds;
  geom_move : float -> float -> G -> G;
  geom_rotate : float -> Point -> G -> G;
  geom_resize : float -> Point -> G -> G;
  layer_getLonLatFromViewPortPx : Layer -> Pixel -> option LonLat;
}.

(** ** The handler *)

Section Handler.

Context {G Layer : Type} `{!Host G Layer}.

(** The handler instance together with the store of geometry objects and
    the log of host calls.  [dragGeometry] and [radius] are not declared
    by the class: they are undefined ([None]) until [down] assigns them.
    [callbacks] maps a callback key to the function registered for it. *)
Record state := mkState {
  geometry : option loc;
  dragGeometry : option loc;
  feature : option Feature;
  angle : float;
  radius : option float;
  layer : option Layer;
  origin : option Point;
  callbacks : gmap string nat;
  heap : list G;
  log : list event;
}.

Definition set_geometry (v : option loc) (s : state) : state :=
  mkState v (dragGeometry s) (feature s) (angle s) (radius s) (layer s)
          (origin s) (callbacks s) (heap s) (log s).

Definition set_dragGeometry (v : option loc) (s : state) : state :=
  mkState (geometry s) v (feature s) (angle s) (radius s) (layer s)
          (origin s) (callbacks s) (heap s) (log s).

Definition set_feature (v : option Feature) (s : state) : state :=
  mkState (geometry s) (dragGeometry s) v (angle s) (radius s) (layer s)
          (origin s) (callbacks s) (heap s) (log s).

Definition set_angle (v : float) (s : state) : state :=
  mkState (geometry s) (dragGeometry s) (feature s) v (radius s) (layer s)
          (origin s) (callbacks s) (heap s) (log s).

Definition set_radius (v : option float) (s : state) : state :=
  mkState (geometry s) (dragGeometry s) (feature s) (angle s) v (layer s)
          (origin s) (callbacks s) (heap s) (log s).

Definition set_origin (v : option Point) (s : state) : state :=
  mkState (geometry s) (dragGeometry s) (feature s) (angle s) (radius s)
          (layer s) v (callbacks s) (heap s) (log s).

Definition set_heap (v : list G) (s : state) : state :=
  mkState (geometry s) (dragGeometry s) (feature s) (angle s) (radius s)
          (layer s) (origin s) (callbacks s) v (log s).

Definition set_log (v : list event) (s : state) : state :=
  mkState (geometry s) (dragGeometry s) (feature s) (angle s) (radius s)
          (layer s) (origin s) (callbacks s) (heap s) v.

(** *** Computations: state passing with exceptions *)

Inductive outcome (A : Type) :=
| Ok (a : A) (s : state)
| Throw (e : error) (s : state).
Arguments Ok {A} a s.
Arguments Throw {A} e s.

Definition M (A : Type) : Type := state -> outcome A.

Definition ret {A} (a : A) : M A := fun s => Ok a s.

Definition bind {A B} (m : M A) (k : A -> M B) : M B :=
  fun s => match m s with
           | Ok a s' => k a s'
           | Throw e s' => Throw e s'
           end.

Definition throw {A} (e : error) : M A := fun s => Throw e s.

Definition get : M state := fun s => Ok s s.

Definition modify (f : state -> state) : M unit := fun s => Ok tt (f s).

Notation "'do' v <- m ; k" := (bind m (fun v => k))
  (at level 10, v name, m at level 100, k at level 200,
   format "'[v' 'do'  v  <-  m ; '/' k ']'").
Notation "'run' m ; k" := (bind m (fun _ => k))
  (at level 10, m at level 100, k at level 200,
   format "'[v' 'run'  m ; '/' k ']'").

(** The state an operation leaves behind, whether it returned or threw. *)
Definition final {A} (r : outcome A) : state :=
  match r with Ok _ s => s | Throw _ s => s end.

(** Reading a property of [null] or [undefined] raises a TypeError. *)
Definition deref {A} (v : option A) : M A :=
  match v with
  | Some a => ret a
  | None => throw TypeError
  end.

Definition emit (e : event) : M unit :=
  modify (fun s => set_log (log s ++ [e]) s).

(** The object at a location.  Every location the handler holds was
    allocated in the store, so the [None] branch is never taken from a
    well-formed state. *)
Definition load (l : loc) : M G :=
  do s <- get; deref (heap s !! l).

(** [l.clone()]: a new object, at the next free location. *)
Definition clone_at (l : loc) : M loc :=
  do g <- load l;
  do s <- get;
  let l' := length (heap s) in
  run modify (set_heap (heap s ++ [geom_clone g]));
  run emit (GeomClone l l');
  ret l'.

(** A mutating method call on the object at [l], logged as [e]. *)
Definition mutate (l : loc) (f : G -> G) (e : event) : M unit :=
  do g <- load l;
  run modify (fun s => set_heap (<[l := f g]> (heap s)) s);
  emit e.

(** [l.bounds]: the cached bounds object, or null. *)
Definition bounds_at (l : loc) : M (option Bounds) :=
  do g <- load l; ret (geom_bounds g).

(** *** Geometry.js, lines 118-132 and 199-395 *)

(** [setGeometry]: [this.geometry = geometry]. *)
Definition setGeometry (g : option loc) : M unit :=
  modify (set_geometry g).

(** [clear]: clear any rendered features on the temporary layer. *)
Definition clear : M unit :=
  do s <- get;
  match layer s with
  | Some _ => run emit RendererClear; emit DestroyFeatures
  | None => ret tt
  end.

(** [callback (name, args)].  The [args] parameter is never read: the
    function registered under [name] is applied to a one-element array
    holding a fresh clone of [this.dragGeometry]. *)
Definition callback (name : string) (args : option (list value)) : M unit :=
  do s <- get;
  match geometry s with
  | None => ret tt
  | Some _ =>
    run (if String.eqb name "done" || String.eqb name "cancel"
         then clear else ret tt);
    match callbacks s !! name with
    | Some fn =>
      do d <- deref (dragGeometry s);
      do c <- clone_at d;
      emit (Fire name fn [VGeometry c])
    | None => ret tt
    end
  end.

(** [measureWidth]: recompute the bounds of the working shape and return
    [Math.abs(bounds.right - bounds.left)]. *)
Definition measureWidth : M float :=
  do s <- get;
  do d <- deref (dragGeometry s);
  run mutate d geom_calculateBounds (GeomCalculateBounds d);
  do ob <- bounds_at d;
  do b <- deref ob;
  ret (Math_abs (b_right b - b_left b)).

(** [calculateAngle (point, evt)]: the angle of [point] seen from
    [this.origin], in degrees. *)
Definition calculateAngle (point : Point) (evt : Event) : M float :=
  do s <- get;
  do o <- deref (origin s);
  ret (Math_atan2 (y point - y o) (x point - x o) * (180 / Math_PI)).

(** [down (evt)]: start drawing a new feature. *)
Definition down (evt : Event) : M unit :=
  do s <- get;
  match geometry s with
  | None => ret tt
  | Some tpl =>
    run clear;
    do d <- clone_at tpl;
    run modify (set_dragGeometry (Some d));
    do ly <- deref (layer s);
    do loc <- deref (layer_getLonLatFromViewPortPx ly (xy evt));
    let o := Point_new (lon loc) (lat loc) in
    run modify (set_origin (Some o));
    do w <- measureWidth;
    run modify (set_radius (Some w));
    let f := mkFeature d in
    run modify (set_feature (Some f));
    run emit (AddFeatures f);
    do ob <- bounds_at d;
    do b <- deref ob;
    let dx := lon loc - b_left b in
    let dy := lat loc - b_bottom b in
    run mutate d (geom_move dx dy) (GeomMove d dx dy);
    callback "create" (Some [VPoint o; VFeature f])
  end.

(** [move (evt)]: respond to a drag move event. *)
Definition move (evt : Event) : M unit :=
  do s <- get;
  match geometry s with
  | None => ret tt
  | Some _ =>
    do ly <- deref (layer s);
    do loc <- deref (layer_getLonLatFromViewPortPx ly (xy evt));
    let point := Point_new (lon loc) (lat loc) in
    (* ROTATE *)
    let prevAngle := angle s in
    do a <- calculateAngle point evt;
    run modify (set_angle a);
    do d <- deref (dragGeometry s);
    do o <- deref (origin s);      (* not null: calculateAngle has read its y *)
    run mutate d (geom_rotate (a - prevAngle) o) (GeomRotate d (a - prevAngle) o);
    (* SCALE *)
    let prevRadius := radius s in
    let r := Point_distanceTo point o in
    run modify (set_radius (Some r));
    let k := match prevRadius with
             | Some p => r / p
             | None => nan              (* r / undefined *)
             end in
    run mutate d (geom_resize k o) (GeomResize d k o);
    (* RENDER *)
    emit (DrawFeature (feature s))
  end.

(** [finalize]: reset [origin] and [angle]. *)
Definition finalize : M unit :=
  run modify (set_origin None);
  modify (set_angle 0).

(** [up (evt)] and [out (evt)]: finish drawing the feature. *)
Definition up (evt : Event) : M unit := finalize.

Definition out (evt : Event) : M unit := finalize.

(** [cancel]: call the cancel callback, then finalize. *)
Definition cancel : M unit :=
  run callback "cancel" None;
  finalize.

(** *** Sequences of calls

    The calls the drag handler receives over time.  An exception ends the
    call that raised it, not the handler: the next call starts from the
    state the failed one left. *)
Inductive op :=
| Down (evt : Event)
| Move (evt : Event)
| Up (evt : Event)
| Out (evt : Event)
| Cancel.

Definition perform (c : op) : M unit :=
  match c with
  | Down evt => down evt
  | Move evt => move evt
  | Up evt => up evt
  | Out evt => out evt
  | Cancel => cancel
  end.

Definition steps (cs : list op) (s : state) : state :=
  foldl (fun s c => final (perform c s)) s cs.

(** *** Specifications of computations

    [triple P m Q E]: from a state in [P], [m] either returns [a] in a
    state in [Q a] or throws in a state in [E]. *)
Definition triple {A} (P : state -> Prop) (m : M A)
    (Q : A -> state -> Prop) (E : state -> Prop) : Prop :=
  forall s, P s ->
    match m s with
    | Ok a s' => Q a s'
    | Throw _ s' => E s'
    end.

(** The state [down] has built when it reaches its last statement, the
    call of the create callback: [tpl] is the template, [T] the object it
    refers to, [loc] the map position of the click and [b] the bounds of
    the fresh clone. *)
Definition started (s : state) (tpl : loc) (T : G) (loc : LonLat)
    (b : Bounds) : state :=
  let d := length (heap s) in
  let dx := lon loc - b_left b in
  let dy := lat loc - b_bottom b in
  mkState (geometry s) (Some d) (Some (mkFeature d)) (angle s)
    (Some (Math_abs (b_right b - b_left b))) (layer s)
    (Some (Point_new (lon loc) (lat loc))) (callbacks s)
    (heap s ++ [geom_move dx dy (geom_calculateBounds (geom_clone T))])
    (log s ++ [RendererClear; DestroyFeatures; GeomClone tpl d;
               GeomCalculateBounds d; AddFeatures (mkFeature d);
               GeomMove d dx dy]).

(** The state a callback leaves when it delivers: one more object in the
    store, the clone of the working shape [g] at [d], and the call of the
    function [fn] registered under [name] on that clone.  [pre] is what
    was logged before the clone was taken. *)
Definition delivered (s : state) (pre : list event) (name : string)
    (fn : nat) (d : loc) (g : G) : state :=
  let c := length (heap s) in
  set_log (log s ++ pre ++ [GeomClone d c; Fire name fn [VGeometry c]])
    (set_heap (heap s ++ [geom_clone g]) s).

(** The template [tpl] still refers to the object [T], it is not the
    working shape, and the sketch layer is [ly]. *)
Definition template_kept (tpl : loc) (T : G) (ly : option Layer)
    (s : state) : Prop :=
  geometry s = Some tpl /\ heap s !! tpl = Some T /\
  dragGeometry s <> Some tpl /\ layer s = ly.

End Handler.

Arguments state : clear implicits.
Arguments outcome : clear implicits.
Arguments Ok {G Layer A} a s.
Arguments Throw {G Layer A} e s.

(** ** A reference host: collections of points

    One implementation of the host interface, with the formulas of
    OpenLayers' [Geometry.Point] and [Geometry.Collection].  The
    transcendental functions of [Math] return the values ECMAScript
    prescribes at the boundary cases of its tables and a truncated series
    elsewhere, which is the latitude the standard leaves. *)
Module RefHost.

Definition is_nan (v : float) : bool := negb (v =? v).

Definition is_neg_zero (v : float) : bool := (v =? 0) && (1 / v <? 0).

Definition half_pi : float := 0x1.921fb54442d18p+0.
Definition quarter_pi : float := 0x1.921fb54442d18p-1.
Definition two_pi : float := 0x1.921fb54442d18p+2.

(** [t - t^3/3 + t^5/5 - ...], [n] terms from the one of exponent [2k+1];
    [p] is [t^(2k+1)] with its sign and [d] is [2k+1]. *)
Fixpoint atan_series (n : nat) (t2 p d acc : float) : float :=
  match n with
  | O => acc
  | S n' => atan_series n' t2 (- (p * t2)) (d + 2) (acc + p / d)
  end.

(** Arc tangent of [0 <= t <= 1]: two argument halvings, then the series. *)
Definition atan_unit (t : float) : float :=
  let t1 := t / (1 + PrimFloat.sqrt (1 + t * t)) in
  let t2 := t1 / (1 + PrimFloat.sqrt (1 + t1 * t1)) in
  4 * atan_series 14 (t2 * t2) t2 1 0.

(** Arc tangent of [t >= 0], infinity included. *)
Definition atan_pos (t : float) : float :=
  if 1 <? t then half_pi - atan_unit (1 / t) else atan_unit t.

(** [Math.atan2 (y, x)] for [y >= +0] (ECMAScript, Math.atan2). *)
Definition atan2_upper (vy vx : float) : float :=
  if 0 <? vy then
    if vx =? 0 then half_pi
    else if vx =? infinity then
      (if vy =? infinity then quarter_pi else 0)
    else if vx =? neg_infinity then
      (if vy =? infinity then 3 * quarter_pi else Math_PI)
    else if vy =? infinity then half_pi
    else if 0 <? vx then atan_pos (vy / vx)
    else Math_PI - atan_pos (vy / - vx)
  else
    if 0 <? vx then 0
    else if vx <? 0 then Math_PI
    else if is_neg_zero vx then Math_PI else 0.

Definition atan2 (vy vx : float) : float :=
  if is_nan vy || is_nan vx then nan
  else if (vy <? 0) || is_neg_zero vy then - atan2_upper (- vy) vx
  else atan2_upper vy vx.

(** [sum_k (-1)^k v^(2k+e) / (2k+e)!]: [p] is the current term and [d]
    the factor its denominator was last multiplied by. *)
Fixpoint sincos_series (n : nat) (v2 p d acc : float) : float :=
  match n with
  | O => acc
  | S n' =>
    sincos_series n' v2 (- (p * v2) / ((d + 1) * (d + 2))) (d + 2) (acc + p)
  end.

(** [v] brought into [-pi, pi] by a multiple of [2 pi]. *)
Definition reduce (v : float) : float :=
  let q := v / two_pi in
  let k := (q + 0x1.8p+52) - 0x1.8p+52 in
  v - k * two_pi.

Definition sin (v : float) : float :=
  if is_nan v || (PrimFloat.abs v =? infinity) then nan
  else if v =? 0 then v
  else let r := reduce v in sincos_series 16 (r * r) r 1 0.

Definition cos (v : float) : float :=
  if is_nan v || (PrimFloat.abs v =? infinity) then nan
  else if v =? 0 then 1
  else let r := reduce v in sincos_series 16 (r * r) 1 0 0.

(** A geometry collection whose components are points, with the bounds
    cache of [OpenLayers.Geometry] ([None] is null). *)
Record Collection := mkCollection {
  components : list Point;
  bounds : option Bounds;
}.

(** [new OpenLayers.Geometry.Point (x, y)] stores [parseFloat] of its
    arguments; on a number that changes only [-0], which becomes [+0]. *)
Definition parseFloat (v : float) : float := if v =? 0 then 0 else v.

Definition new_Point (vx vy : float) : Point :=
  mkPoint (parseFloat vx) (parseFloat vy).

(** [Point.distanceTo]. *)
Definition distanceTo (p q : Point) : float :=
  PrimFloat.sqrt ((x p - x q) * (x p - x q) + (y p - y q) * (y p - y q)).

(** [Collection.clone]: the components are cloned, the new collection has
    no cached bounds. *)
Definition clone (c : Collection) : Collection :=
  mkCollection (components c) None.

(** [Bounds.extend] by the bounds of one point. *)
Definition extend (ob : option Bounds) (p : Point) : option Bounds :=
  match ob with
  | None => Some (mkBounds (x p) (y p) (x p) (y p))
  | Some b =>
    Some (mkBounds (if x p <? b_left b then x p else b_left b)
                   (if y p <? b_bottom b then y p else b_bottom b)
                   (if b_right b <? x p then x p else b_right b)
                   (if b_top b <? y p then y p else b_top b))
  end.

(** [Collection.calculateBounds]: the bounds stay null when there is no
    component. *)
Definition calculateBounds (c : Collection) : Collection :=
  mkCollection (components c) (fold_left extend (components c) None).

(** A component that changes clears the cached bounds of its parent. *)
Definition touched (c : Collection) (ps : list Point) : Collection :=
  mkCollection ps (match ps with [] => bounds c | _ => None end).

(** [Collection.move (x, y)]. *)
Definition move_by (dx dy : float) (c : Collection) : Collection :=
  touched c (map (fun p => mkPoint (x p + dx) (y p + dy)) (components c)).

(** [Point.rotate (angle, origin)]. *)
Definition rotate_point (a : float) (o p : Point) : Point :=
  let a := a * (Math_PI / 180) in
  let r := distanceTo p o in
  let theta := a + atan2 (y p - y o) (x p - x o) in
  mkPoint (x o + r * cos theta) (y o + r * sin theta).

(** [Collection.rotate (angle, center)]. *)
Definition rotate (a : float) (o : Point) (c : Collection) : Collection :=
  touched c (map (rotate_point a o) (components c)).

(** [Point.resize (scale, origin)], with the default ratio 1. *)
Definition resize_point (k : float) (o p : Point) : Point :=
  mkPoint (x o + k * 1 * (x p - x o)) (y o + k * (y p - y o)).

(** [Collection.resize (scale, origin)]. *)
Definition resize (k : float) (o : Point) (c : Collection) : Collection :=
  touched c (map (resize_point k o) (components c)).

(** The sketch layer: once its map has an extent, a pixel is converted to
    the map position of the same coordinates; before that the conversion
    returns null. *)
Record SketchLayer := mkSketchLayer { has_extent : bool }.

Definition getLonLatFromViewPortPx (ly : SketchLayer) (px : Pixel)
  : option LonLat :=
  if has_extent ly then Some (mkLonLat (pixel_x px) (pixel_y px)) else None.

#[export] Instance host : Host Collection SketchLayer := {|
  Math_atan2 := atan2;
  Point_new := new_Point;
  Point_distanceTo := distanceTo;
  geom_clone := clone;
  geom_calculateBounds := calculateBounds;
  geom_bounds := bounds;
  geom_move := move_by;
  geom_rotate := rotate;
  geom_resize := resize;
  layer_getLonLatFromViewPortPx := getLonLatFromViewPortPx;
|}.

(** A handler that was activated (it has a sketch layer), with the given
    callbacks and store, and nothing else set. *)
Definition fresh (cbs : gmap string nat) (h : list Collection)
  : state Collection SketchLayer :=
  mkState None None None 0 None (Some (mkSketchLayer true)) None cbs h [].

Definition at_px (vx vy : float) : Event := mkEvent (mkPixel vx vy).

End RefHost.


(** ** Concrete drags on the reference host *)
Module Drag.

Import RefHost.

(** The callbacks registered with the handler: function 1 under "create",
    function 2 under "cancel". *)
Definition registered : gmap string nat :=
  {[ "create" := 1%nat; "cancel" := 2%nat ]}.

(** A triangle of native width 10; a horizontal segment of width 10; a
    single point, of width 0. *)
Definition triangle : Collection :=
  mkCollection [mkPoint 3 4; mkPoint 13 4; mkPoint 13 9] None.

Definition segment : Collection :=
  mkCollection [mkPoint 0 0; mkPoint 10 0] None.

Definition dot : Collection := mkCollection [mkPoint 3 4] None.

(** An activated handler whose template, the object at location 0, was
    given by [setGeometry]; no drag has started yet. *)
Definition idle (template : Collection) : state Collection SketchLayer :=
  final (setGeometry (Some 0%nat) (fresh registered [template])).

(** The triangle after pointer-down at (0, 0), and after a first move of
    the pointer to (0, 10). *)
Definition pressed : state Collection SketchLayer :=
  final (down (at_px 0 0) (idle triangle)).

Definition dragged : state Collection SketchLayer :=
  final (move (at_px 0 10) pressed).

(** The segment after pointer-down at its left end (0, 0), and after a
    first move of the pointer straight up to (0, 5). *)
Definition segment_pressed : state Collection SketchLayer :=
  final (down (at_px 0 0) (idle segment)).

Definition segment_dragged : state Collection SketchLayer :=
  final (move (at_px 0 5) segment_pressed).

(** The single point after pointer-down at (1, 1), and after a first move
    of the pointer to (6, 1). *)
Definition dot_pressed : state Collection SketchLayer :=
  final (down (at_px 1 1) (idle dot)).

Definition dot_dragged : state Collection SketchLayer :=
  final (move (at_px 6 1) dot_pressed).

(** A handler with no template set. *)
Definition bare : state Collection SketchLayer := fresh registered [].

(** Two sessions and the start of a third. *)
Definition history : list op :=
  [Down (at_px 0 0); Move (at_px 0 10); Move (at_px 7 7); Up (at_px 7 7);
   Cancel; Down (at_px 2 3); Move (at_px 9 3); Out (at_px 9 3);
   Move (at_px 1 1)].

(** The horizontal width of a collection: [measureWidth] on the host. *)
Definition width (c : Collection) : option float :=
  match bounds (calculateBounds c) with
  | Some b => Some (Math_abs (b_right b - b_left b))
  | None => None
  end.

(** The horizontal width of the working shape. *)
Definition working_width (s : state Collection SketchLayer) : option float :=
  match dragGeometry s with
  | Some d => match heap s !! d with Some g => width g | None => None end
  | None => None
  end.

End Drag.

(** ** Programs over the handler

    What the owner of a handler can do between two pointer events: any of
    the calls of the drag protocol, or [setGeometry]. *)
Section Programs.

Context {G Layer : Type} `{!Host G Layer}.

Inductive api :=
| Call (c : op)
| SetGeometry (g : option loc).

Definition invoke (a : api) : M unit :=
  match a with
  | Call c => perform c
  | SetGeometry g => setGeometry g
  end.

Definition program (p : list api) (s : state G Layer) : state G Layer :=
  foldl (fun s a => final (invoke a s)) s p.

(** When the working shape is set it is an object of the store, and an
    origin is only ever present together with a working shape. *)
Definition well_formed (s : state G Layer) : Prop :=
  (forall d, dragGeometry s = Some d -> d < length (heap s)) /\
  (forall o, origin s = Some o -> is_Some (dragGeometry s)).

Definition is_fire (e : event) : Prop :=
  match e with Fire _ _ _ => True | _ => False end.

(** Every callback call among [evs] is made under a name in [N], on one
    argument, a geometry at a location from [lo] up to [hi]. *)
Definition fires_fresh (N : string -> Prop) (lo hi : nat)
    (evs : list event) : Prop :=
  forall name fn args, In (Fire name fn args) evs ->
    N name /\ exists k, args = [VGeometry k] /\ lo <= k < hi.

(** What can have happened between the state [s0] and the state [s] of
    one call: the template, the layer and the callbacks are the same; the
    store has grown; an object of [s0] other than its working shape is
    unchanged; the working shape is the one of [s0] or a new object; the
    log has grown, by callback calls on new objects only. *)
Definition footprint (N : string -> Prop) (s0 s : state G Layer) : Prop :=
  geometry s = geometry s0 /\ layer s = layer s0 /\
  callbacks s = callbacks s0 /\
  length (heap s0) <= length (heap s) /\
  (forall l, l < length (heap s0) -> dragGeometry s0 <> Some l ->
             heap s !! l = heap s0 !! l) /\
  (dragGeometry s = dragGeometry s0 \/
   exists d, dragGeometry s = Some d /\ length (heap s0) <= d) /\
  exists evs, log s = log s0 ++ evs /\
              fires_fresh N (length (heap s0)) (length (heap s)) evs.

(** The names under which the handler itself calls [callback]. *)
Definition own_name (name : string) : Prop :=
  name = "create" \/ name = "cancel".

(** An outcome with its state changed by [f]. *)
Definition in_state {A} (f : state G Layer -> state G Layer)
    (r : outcome G Layer A) : outcome G Layer A :=
  match r with
  | Ok a s => Ok a (f s)
  | Throw e s => Throw e (f s)
  end.

End Programs.

(** ** Further concrete inputs on the reference host *)
Module Cases.

Import RefHost Drag.

(** A collection without components: its bounds stay null. *)
Definition hollow : Collection := mkCollection [] None.

(** Callbacks for "done" (function 3) and "move" (function 4) besides
    those for "create" and "cancel". *)
Definition watched : gmap string nat :=
  <["done" := 3%nat]> (<["move" := 4%nat]> registered).

(** The triangle dragged from (0, 0) to (0, 10) under these callbacks. *)
Definition watched_dragged : state Collection SketchLayer :=
  steps [Down (at_px 0 0); Move (at_px 0 10)]
    (final (setGeometry (Some 0%nat) (fresh watched [triangle]))).

(** A program that moves, ends, restarts and cancels, and changes the
    template on the way: to the clone that the create callback received
    (location 2), to none, and back to the first one. *)
Definition errands : list api :=
  [Call (Move (at_px 3 4)); SetGeometry (Some 2%nat); Call (Up (at_px 3 4));
   Call (Down (at_px 5 5)); Call (Move (at_px 6 9)); Call Cancel;
   SetGeometry None; Call (Down (at_px 1 1)); SetGeometry (Some 0%nat);
   Call (Move (at_px 2 2))].

(** A start and a first move, as a program. *)
Definition opening : list api :=
  [Call (Down (at_px 0 0)); Call (Move (at_px 0 10))].




End Cases.
(** * Properties of the handler, for every host *)

Section HandlerProperties.

Context {G Layer : Type} `{!Host G Layer}.
Implicit Types (s : state G Layer) (evt : Event) (g T : G) (d tpl : loc).

Ltac unfold_handler :=
  unfold cancel, up, out, finalize, down, move, callback, clear, measureWidth,
    calculateAngle, bounds_at, mutate, clone_at, load, emit, deref, modify,
    get, throw, bind, ret.

(** ** Finalization *)

Lemma finalize_ok s : finalize s = Ok tt (set_angle 0 (set_origin None s)).
Proof. reflexivity. Qed.

(** ** The callback *)

Lemma callback_no_template s name args :
  geometry s = None -> callback name args s = Ok tt s.
Proof. intros Hg. unfold_handler. rewrite Hg. reflexivity. Qed.

Lemma callback_unregistered s name args tpl :
  geometry s = Some tpl -> callbacks s !! name = None ->
  callback name args s =
    Ok tt (set_log (log s ++
             (if String.eqb name "done" || String.eqb name "cancel"
              then match layer s with
                   | Some _ => [RendererClear; DestroyFeatures]
                   | None => []
                   end
              else [])) s).
Proof.
  intros Hg Hc. destruct s; simpl in *; subst. unfold_handler; simpl.
  destruct (String.eqb name "done" || String.eqb name "cancel"); simpl.
  - destruct layer0; simpl; rewrite Hc; simpl; rewrite <- ?app_assoc, ?app_nil_r; reflexivity.
  - rewrite Hc. rewrite app_nil_r. reflexivity.
Qed.

Lemma callback_delivers s name args tpl fn d g :
  geometry s = Some tpl -> callbacks s !! name = Some fn ->
  dragGeometry s = Some d -> heap s !! d = Some g ->
  callback name args s =
    Ok tt (delivered s
             (if String.eqb name "done" || String.eqb name "cancel"
              then match layer s with
                   | Some _ => [RendererClear; DestroyFeatures]
                   | None => []
                   end
              else []) name fn d g).
Proof.
  intros Hg Hc Hd Hh. destruct s; simpl in *; subst.
  unfold_handler; unfold delivered; simpl.
  destruct (String.eqb name "done" || String.eqb name "cancel"); simpl.
  - destruct layer0; simpl; rewrite Hc; simpl; rewrite Hh; simpl;
      rewrite <- ?app_assoc; reflexivity.
  - rewrite Hc; simpl. rewrite Hh; simpl. rewrite <- ?app_assoc. reflexivity.
Qed.

(** With a template set and a function registered, the callback reads
    [this.dragGeometry.clone]: a TypeError while no drag has started. *)
Lemma callback_without_shape s name args tpl fn :
  geometry s = Some tpl -> callbacks s !! name = Some fn ->
  dragGeometry s = None ->
  exists s', callback name args s = Throw TypeError s'.
Proof.
  intros Hg Hc Hd. destruct s; simpl in *; subst. unfold_handler; simpl.
  destruct (String.eqb name "done" || String.eqb name "cancel"); simpl.
  - destruct layer0; simpl; rewrite Hc; simpl; eauto.
  - rewrite Hc; simpl; eauto.
Qed.

(** ** The store *)

Lemma lookup_last (h : list G) g : (h ++ [g]) !! length h = Some g.
Proof. rewrite lookup_app_r by lia. rewrite Nat.sub_diag. reflexivity. Qed.

Lemma insert_last (h : list G) g g' : <[length h := g']> (h ++ [g]) = h ++ [g'].
Proof.
  rewrite insert_app_r_alt by lia. rewrite Nat.sub_diag. reflexivity.
Qed.

(** ** The start of a drag *)

Lemma down_no_template s evt : geometry s = None -> down evt s = Ok tt s.
Proof. intros Hg. unfold_handler. rewrite Hg. reflexivity. Qed.

Lemma down_reaches_create s evt tpl T ly loc b :
  geometry s = Some tpl -> heap s !! tpl = Some T ->
  layer s = Some ly ->
  layer_getLonLatFromViewPortPx ly (xy evt) = Some loc ->
  geom_bounds (geom_calculateBounds (geom_clone T)) = Some b ->
  down evt s =
    callback "create"
      (Some [VPoint (Point_new (lon loc) (lat loc));
             VFeature (mkFeature (length (heap s)))])
      (started s tpl T loc b).
Proof.
  intros Hg Hh Hl Hloc Hb. destruct s; simpl in *; subst.
  unfold down, started.
  unfold measureWidth, clear, bounds_at, mutate, clone_at, load, emit, deref,
    modify, get, throw, bind, ret.
  simpl. rewrite Hh; simpl. rewrite Hloc; simpl.
  rewrite lookup_last; simpl. rewrite insert_last, lookup_last; simpl.
  rewrite Hb; simpl. rewrite lookup_last; simpl. rewrite Hb; simpl.
  rewrite lookup_last; simpl. rewrite insert_last, <- !app_assoc.
  reflexivity.
Qed.

(** ** Rules for specifications *)

Lemma triple_ret {A} (P : state G Layer -> Prop) (a : A) Q E :
  (forall s, P s -> Q a s) -> triple P (ret a) Q E.
Proof. intros HQ s HP. simpl. auto. Qed.

Lemma triple_bind {A B} (P : state G Layer -> Prop) (m : M A) (k : A -> M B)
    Q R E :
  triple P m Q E -> (forall a, triple (Q a) (k a) R E) ->
  triple P (bind m k) R E.
Proof.
  intros Hm Hk s HP. unfold bind. specialize (Hm s HP).
  destruct (m s) as [a s'|e s']; [exact (Hk a s' Hm) | exact Hm].
Qed.

Lemma triple_pre {A} (P P' : state G Layer -> Prop) (m : M A) Q E :
  (forall s, P s -> P' s) -> triple P' m Q E -> triple P m Q E.
Proof. intros HP Hm s Hs. apply Hm, HP, Hs. Qed.

Lemma triple_bind_get {B} (P : state G Layer -> Prop) (k : _ -> M B) Q E :
  (forall s0, P s0 -> triple (fun s => s = s0) (k s0) Q E) ->
  triple P (bind get k) Q E.
Proof. intros Hk s HP. unfold bind, get. apply (Hk s HP). reflexivity. Qed.

Lemma triple_bind_deref {A B} (P : state G Layer -> Prop) (v : option A)
    (k : A -> M B) Q E :
  (v = None -> forall s, P s -> E s) ->
  (forall a, v = Some a -> triple P (k a) Q E) ->
  triple P (bind (deref v) k) Q E.
Proof.
  intros HE Hk s HP. unfold bind, deref. destruct v as [a|]; simpl.
  - apply (Hk a eq_refl s HP).
  - apply (HE eq_refl s HP).
Qed.

Lemma triple_fact {A} (F : Prop) (P : state G Layer -> Prop) (m : M A) Q E :
  (F -> triple P m Q E) -> triple (fun s => F /\ P s) m Q E.
Proof. intros Hm s [HF HP]. apply (Hm HF s HP). Qed.

Lemma triple_modify (P : state G Layer -> Prop) f (Q : unit -> _) E :
  (forall s, P s -> Q tt (f s)) -> triple P (modify f) Q E.
Proof. intros HQ s HP. simpl. auto. Qed.

(** ** The template is outside the reach of every call *)

Section TemplateKept.

Variables (tpl : loc) (T : G) (ly : option Layer).

Abbreviation K := (template_kept tpl T ly).

(** From a known state that satisfies the invariant. *)
Lemma kept_here {A} s0 (m : M A) Q :
  K s0 -> triple K m Q K -> triple (fun s => s = s0) m Q K.
Proof. intros HK Hm s ->. apply Hm, HK. Qed.

Lemma kept_emit e : triple K (emit e) (fun _ => K) K.
Proof.
  apply triple_modify. intros s (? & ? & ? & ?). repeat split; assumption.
Qed.

Lemma kept_load (l : loc) :
  triple K (load l) (fun g s => heap s !! l = Some g /\ K s) K.
Proof.
  intros s HK. unfold load, bind, get, deref.
  destruct (heap s !! l) eqn:Hl; simpl; auto.
Qed.

Lemma kept_clone_at (l : loc) :
  triple K (clone_at l) (fun d s => d <> tpl /\ K s) K.
Proof.
  intros s HK. unfold clone_at, load, emit, modify. unfold bind, get, deref.
  destruct (heap s !! l) eqn:Hl; simpl; [|exact HK].
  destruct HK as (Hg & Hh & Hd & Hl'). pose proof (lookup_lt_Some _ _ _ Hh).
  split; [lia|]. repeat split; simpl; try assumption.
  rewrite lookup_app_l by assumption. assumption.
Qed.

Lemma kept_mutate (l : loc) f e :
  l <> tpl -> triple K (mutate l f e) (fun _ => K) K.
Proof.
  intros Hne s HK. unfold mutate, load, emit, modify. unfold bind, get, deref.
  destruct (heap s !! l) eqn:Hl; simpl; [|exact HK].
  destruct HK as (Hg & Hh & Hd & Hl'). repeat split; simpl; try assumption.
  rewrite list_lookup_insert_ne by assumption. assumption.
Qed.

Lemma kept_bounds_at (l : loc) : triple K (bounds_at l) (fun _ => K) K.
Proof.
  unfold bounds_at. eapply triple_bind; [apply kept_load|].
  intros g. apply triple_ret. intros s [_ HK]. exact HK.
Qed.

Lemma kept_clear : triple K clear (fun _ => K) K.
Proof.
  unfold clear. apply triple_bind_get. intros s0 HK. apply kept_here; [exact HK|].
  destruct (layer s0).
  - eapply triple_bind; [apply kept_emit|]. intros []. apply kept_emit.
  - apply triple_ret. auto.
Qed.

Lemma kept_callback name args : triple K (callback name args) (fun _ => K) K.
Proof.
  unfold callback. apply triple_bind_get. intros s0 HK.
  apply kept_here; [exact HK|].
  destruct (geometry s0); [|apply triple_ret; auto].
  eapply triple_bind.
  { destruct (_ || _); [apply kept_clear | apply triple_ret; auto]. }
  intros []. destruct (callbacks s0 !! name); [|apply triple_ret; auto].
  apply triple_bind_deref; [auto|]. intros d _.
  eapply triple_bind; [apply kept_clone_at|]. intros c.
  apply (triple_pre _ K); [intros s [_ HK']; exact HK'|]. apply kept_emit.
Qed.

Lemma kept_finalize : triple K finalize (fun _ => K) K.
Proof. intros s (? & ? & ? & ?). simpl. repeat split; assumption. Qed.

Lemma kept_cancel : triple K cancel (fun _ => K) K.
Proof.
  unfold cancel. eapply triple_bind; [apply kept_callback|].
  intros []. apply kept_finalize.
Qed.

Lemma kept_set (f : state G Layer -> state G Layer) :
  (forall s, geometry (f s) = geometry s /\ heap (f s) = heap s /\
             dragGeometry (f s) = dragGeometry s /\ layer (f s) = layer s) ->
  triple K (modify f) (fun _ => K) K.
Proof.
  intros Hf. apply triple_modify. intros s (Hg & Hh & Hd & Hl).
  destruct (Hf s) as (Hg' & Hh' & Hd' & Hl').
  unfold template_kept. rewrite Hg', Hh', Hd', Hl'. auto.
Qed.

Lemma kept_measureWidth : triple K measureWidth (fun _ => K) K.
Proof.
  unfold measureWidth. apply triple_bind_get. intros s0 HK.
  apply kept_here; [exact HK|].
  apply triple_bind_deref; [auto|]. intros d Hd.
  assert (d <> tpl) as Hne by (destruct HK as (_ & _ & Hn & _); congruence).
  eapply triple_bind; [apply kept_mutate, Hne|]. intros [].
  eapply triple_bind; [apply kept_bounds_at|]. intros ob.
  apply triple_bind_deref; [auto|]. intros b _. apply triple_ret. auto.
Qed.

Lemma kept_calculateAngle point evt :
  triple K (calculateAngle point evt) (fun _ => K) K.
Proof.
  unfold calculateAngle. apply triple_bind_get. intros s0 HK.
  apply kept_here; [exact HK|].
  apply triple_bind_deref; [auto|]. intros o _. apply triple_ret. auto.
Qed.

Lemma kept_move evt : triple K (move evt) (fun _ => K) K.
Proof.
  unfold move. apply triple_bind_get. intros s0 HK.
  apply kept_here; [exact HK|].
  destruct (geometry s0) as [t|]; [|apply triple_ret; auto].
  apply triple_bind_deref; [auto|]. intros sk _.
  apply triple_bind_deref; [auto|]. intros loc _.
  eapply triple_bind; [apply kept_calculateAngle|]. intros a.
  eapply triple_bind; [apply kept_set; intros; simpl; auto|]. intros [].
  apply triple_bind_deref; [auto|]. intros d Hd.
  assert (d <> tpl) as Hne by (destruct HK as (_ & _ & Hn & _); congruence).
  apply triple_bind_deref; [auto|]. intros o _.
  eapply triple_bind; [apply kept_mutate, Hne|]. intros [].
  eapply triple_bind; [apply kept_set; intros; simpl; auto|]. intros [].
  eapply triple_bind; [apply kept_mutate, Hne|]. intros [].
  apply kept_emit.
Qed.

Lemma kept_down evt : triple K (down evt) (fun _ => K) K.
Proof.
  unfold down. apply triple_bind_get. intros s0 HK.
  apply kept_here; [exact HK|].
  destruct (geometry s0) as [t|]; [|apply triple_ret; auto].
  eapply triple_bind; [apply kept_clear|]. intros [].
  eapply triple_bind; [apply kept_clone_at|]. intros d.
  apply triple_fact. intros Hne.
  eapply triple_bind.
  { apply triple_modify. intros s (Hg & Hh & Hd & Hl).
    instantiate (1 := fun _ => K). repeat split; simpl; congruence. }
  intros [].
  apply triple_bind_deref; [auto|]. intros sk _.
  apply triple_bind_deref; [auto|]. intros loc _.
  eapply triple_bind; [apply kept_set; intros; simpl; auto|]. intros [].
  eapply triple_bind; [apply kept_measureWidth|]. intros w.
  eapply triple_bind; [apply kept_set; intros; simpl; auto|]. intros [].
  eapply triple_bind; [apply kept_set; intros; simpl; auto|]. intros [].
  eapply triple_bind; [apply kept_emit|]. intros [].
  eapply triple_bind; [apply kept_bounds_at|]. intros ob.
  apply triple_bind_deref; [auto|]. intros b _.
  eapply triple_bind; [apply kept_mutate, Hne|]. intros [].
  apply kept_callback.
Qed.

Lemma kept_perform c : triple K (perform c) (fun _ => K) K.
Proof.
  destruct c; simpl;
    auto using kept_down, kept_move, kept_finalize, kept_cancel.
Qed.

Lemma kept_steps cs s : K s -> K (steps cs s).
Proof.
  revert s. induction cs as [|c cs IH]; intros s HK; [exact HK|].
  simpl. apply IH. pose proof (kept_perform c s HK) as Hc.
  destruct (perform c s); exact Hc.
Qed.

End TemplateKept.

(** ** What a successful call computes *)

Lemma down_ok s evt tpl T ly loc b :
  geometry s = Some tpl -> heap s !! tpl = Some T ->
  layer s = Some ly ->
  layer_getLonLatFromViewPortPx ly (xy evt) = Some loc ->
  geom_bounds (geom_calculateBounds (geom_clone T)) = Some b ->
  down evt s = Ok tt
    match callbacks s !! "create" with
    | Some fn =>
      delivered (started s tpl T loc b) [] "create" fn (length (heap s))
        (geom_move (lon loc - b_left b) (lat loc - b_bottom b)
           (geom_calculateBounds (geom_clone T)))
    | None => started s tpl T loc b
    end.
Proof.
  intros Hg Hh Hl Hloc Hb.
  rewrite (down_reaches_create s evt tpl T ly loc b) by assumption.
  destruct (callbacks s !! "create") as [fn|] eqn:Hc.
  - rewrite (callback_delivers _ _ _ tpl fn (length (heap s))
               (geom_move (lon loc - b_left b) (lat loc - b_bottom b)
                  (geom_calculateBounds (geom_clone T)))); try done.
    simpl. apply lookup_last.
  - rewrite (callback_unregistered _ _ _ tpl) by done.
    simpl. unfold set_log, started. simpl. rewrite app_nil_r. reflexivity.
Qed.

Lemma move_ok s evt tpl ly loc o d g R :
  geometry s = Some tpl -> layer s = Some ly ->
  layer_getLonLatFromViewPortPx ly (xy evt) = Some loc ->
  origin s = Some o -> dragGeometry s = Some d -> heap s !! d = Some g ->
  radius s = Some R ->
  let p := Point_new (lon loc) (lat loc) in
  let newAngle := Math_atan2 (y p - y o) (x p - x o) * (180 / Math_PI) in
  let newRadius := Point_distanceTo p o in
  move evt s = Ok tt
    (set_log (log s ++ [GeomRotate d (newAngle - angle s) o;
                        GeomResize d (newRadius / R) o;
                        DrawFeature (feature s)])
    (set_heap (<[d := geom_resize (newRadius / R) o
                        (geom_rotate (newAngle - angle s) o g)]> (heap s))
    (set_radius (Some newRadius) (set_angle newAngle s)))).
Proof.
  intros Hg Hl Hloc Ho Hd Hh Hr p newAngle newRadius.
  pose proof (lookup_lt_Some _ _ _ Hh) as Hlt.
  destruct s; simpl in *; subst.
  unfold_handler; simpl. rewrite Hloc; simpl. rewrite Hh; simpl.
  rewrite list_lookup_insert_eq by done. simpl.
  rewrite list_insert_insert_eq, <- !app_assoc. reflexivity.
Qed.

(** With a template set and no origin, a move reads [this.origin.y]. *)
Lemma move_without_origin s evt tpl ly loc :
  geometry s = Some tpl -> layer s = Some ly ->
  layer_getLonLatFromViewPortPx ly (xy evt) = Some loc ->
  origin s = None -> move evt s = Throw TypeError s.
Proof.
  intros Hg Hl Hloc Ho. unfold_handler. rewrite Hg, Hl. simpl.
  rewrite Hloc. simpl. rewrite Ho. reflexivity.
Qed.

Lemma cancel_ok s tpl fn d g :
  geometry s = Some tpl -> callbacks s !! "cancel" = Some fn ->
  dragGeometry s = Some d -> heap s !! d = Some g ->
  cancel s = Ok tt
    (set_angle 0 (set_origin None
       (delivered s
          match layer s with
          | Some _ => [RendererClear; DestroyFeatures]
          | None => []
          end "cancel" fn d g))).
Proof.
  intros Hg Hc Hd Hh. unfold cancel, bind.
  rewrite (callback_delivers s "cancel" None tpl fn d g) by assumption.
  reflexivity.
Qed.

(** ** IEEE division by zero *)

Lemma div_positive_by_zero (v : float) : (0 <? v) = true -> v / 0 = infinity.
Proof.
  intros Hv. apply Prim2SF_inj. rewrite FloatAxioms.div_spec. rewrite FloatAxioms.ltb_spec in Hv.
  change (Prim2SF 0) with (S754_zero false) in *.
  change (Prim2SF infinity) with (S754_infinity false).
  destruct (Prim2SF v) as [[]|[]| |[] m e]; simpl in *;
    try discriminate; reflexivity.
Qed.

Lemma div_zero_by_zero (v : float) : (v =? 0) = true -> v / 0 = nan.
Proof.
  intros Hv. apply Prim2SF_inj. rewrite FloatAxioms.div_spec. rewrite FloatAxioms.eqb_spec in Hv.
  change (Prim2SF 0) with (S754_zero false) in *.
  change (Prim2SF nan) with S754_nan.
  destruct (Prim2SF v) as [[]|[]| |[] m e]; simpl in *;
    try discriminate; reflexivity.
Qed.


(** ** The move step *)

(** C1: during an active session with origin [o], angle [angle s] and
    radius [R], a move computes the new angle as atan2 of the pointer
    relative to [o], in degrees, rotates the working shape by the
    difference to the stored angle about [o] and stores the new angle;
    then computes the new radius as the distance from the pointer to [o],
    scales the working shape by new radius / [R] about [o] and stores the
    new radius.  The rotation comes first, the scaling second, both about
    the same origin, which stays; the redraw of the feature is the last
    call. *)
Theorem move_rotates_then_scales s evt tpl ly loc o d g R :
  geometry s = Some tpl -> layer s = Some ly ->
  layer_getLonLatFromViewPortPx ly (xy evt) = Some loc ->
  origin s = Some o -> dragGeometry s = Some d -> heap s !! d = Some g ->
  radius s = Some R ->
  let p := Point_new (lon loc) (lat loc) in
  let newAngle := Math_atan2 (y p - y o) (x p - x o) * (180 / Math_PI) in
  let newRadius := Point_distanceTo p o in
  exists s',
    move evt s = Ok tt s' /\
    angle s' = newAngle /\
    radius s' = Some newRadius /\
    origin s' = Some o /\
    dragGeometry s' = Some d /\
    heap s' = <[d := geom_resize (newRadius / R) o
                       (geom_rotate (newAngle - angle s) o g)]> (heap s) /\
    log s' = log s ++ [GeomRotate d (newAngle - angle s) o;
                       GeomResize d (newRadius / R) o;
                       DrawFeature (feature s)].
Proof.
  intros Hg Hl Hloc Ho Hd Hh Hr p newAngle newRadius.
  eexists. split; [eapply move_ok; eassumption|].
  simpl. repeat split; assumption.
Qed.

(** C2, as amended: after a start on a template of native width [W] and a
    first move with the pointer at distance [D] from the origin, the
    stored radius is [D] and the working shape is the translated clone,
    rotated to the pointer angle and then scaled by exactly [D / W] about
    the origin.  Nothing is said of the horizontal width of the result. *)
Theorem first_move_scales_by_ratio s e0 e1 tpl T ly loc0 loc1 b :
  geometry s = Some tpl -> heap s !! tpl = Some T -> layer s = Some ly ->
  layer_getLonLatFromViewPortPx ly (xy e0) = Some loc0 ->
  layer_getLonLatFromViewPortPx ly (xy e1) = Some loc1 ->
  geom_bounds (geom_calculateBounds (geom_clone T)) = Some b ->
  let W := Math_abs (b_right b - b_left b) in
  let o := Point_new (lon loc0) (lat loc0) in
  let p := Point_new (lon loc1) (lat loc1) in
  let D := Point_distanceTo p o in
  let A := Math_atan2 (y p - y o) (x p - x o) * (180 / Math_PI) in
  let d := length (heap s) in
  let placed := geom_move (lon loc0 - b_left b) (lat loc0 - b_bottom b)
                  (geom_calculateBounds (geom_clone T)) in
  exists s1 s2,
    down e0 s = Ok tt s1 /\ radius s1 = Some W /\
    move e1 s1 = Ok tt s2 /\ radius s2 = Some D /\
    heap s2 !! d = Some (geom_resize (D / W) o
                           (geom_rotate (A - angle s) o placed)) /\
    log s2 = log s1 ++ [GeomRotate d (A - angle s) o;
                        GeomResize d (D / W) o;
                        DrawFeature (Some (mkFeature d))].
Proof.
  intros Hg Hh Hl Hloc0 Hloc1 Hb W o p D A d placed.
  pose proof (down_ok s e0 tpl T ly loc0 b Hg Hh Hl Hloc0 Hb) as Hdown.
  set (s1 := match callbacks s !! "create" with
             | Some fn => _ | None => _ end) in Hdown.
  assert (geometry s1 = Some tpl /\ layer s1 = Some ly /\
          origin s1 = Some o /\ dragGeometry s1 = Some d /\
          heap s1 !! d = Some placed /\ radius s1 = Some W /\
          angle s1 = angle s /\ feature s1 = Some (mkFeature d) /\
          d < length (heap s1)) as (Hg1 & Hl1 & Ho1 & Hd1 & Hh1 & Hr1 & Ha1 & Hf1 & Hlt).
  { subst s1. destruct (callbacks s !! "create"); simpl;
      repeat split; try assumption; try reflexivity.
    - rewrite lookup_app_l by (rewrite length_app; simpl; lia).
      apply lookup_last.
    - rewrite !length_app; simpl; lia.
    - apply lookup_last.
    - rewrite length_app; simpl; lia. }
  exists s1. eexists. split; [exact Hdown|]. split; [exact Hr1|].
  split; [eapply move_ok; eassumption|].
  simpl. rewrite Ha1, Hf1. split; [reflexivity|].
  split; [|reflexivity]. apply list_lookup_insert_eq. exact Hlt.
Qed.

(** C3, as amended: no guard is applied to a radius of 0.  A template of
    width 0 is accepted at start, which opens a session with radius 0; and
    a move that finds the radius at 0, after such a start or in any other
    session, succeeds and scales the working shape about the origin by
    the IEEE quotient new radius / 0: +Infinity when the new radius is
    positive, NaN when it is zero. *)
Theorem zero_radius_scale_is_unguarded :
  (forall s e0 e1 tpl T ly loc0 loc1 b,
     geometry s = Some tpl -> heap s !! tpl = Some T -> layer s = Some ly ->
     layer_getLonLatFromViewPortPx ly (xy e0) = Some loc0 ->
     layer_getLonLatFromViewPortPx ly (xy e1) = Some loc1 ->
     geom_bounds (geom_calculateBounds (geom_clone T)) = Some b ->
     Math_abs (b_right b - b_left b) = 0 ->
     let o := Point_new (lon loc0) (lat loc0) in
     let p := Point_new (lon loc1) (lat loc1) in
     let D := Point_distanceTo p o in
     let A := Math_atan2 (y p - y o) (x p - x o) * (180 / Math_PI) in
     let d := length (heap s) in
     let placed := geom_move (lon loc0 - b_left b) (lat loc0 - b_bottom b)
                     (geom_calculateBounds (geom_clone T)) in
     exists s1 s2,
       down e0 s = Ok tt s1 /\
       origin s1 = Some o /\ radius s1 = Some 0 /\
       dragGeometry s1 = Some d /\ heap s1 !! d = Some placed /\
       move e1 s1 = Ok tt s2 /\
       heap s2 !! d = Some (geom_resize (D / 0) o
                              (geom_rotate (A - angle s) o placed)) /\
       log s2 = log s1 ++ [GeomRotate d (A - angle s) o;
                           GeomResize d (D / 0) o;
                           DrawFeature (Some (mkFeature d))] /\
       ((0 <? D) = true -> D / 0 = infinity) /\
       ((D =? 0) = true -> D / 0 = nan)) /\
  (forall s evt tpl ly loc o d g,
     geometry s = Some tpl -> layer s = Some ly ->
     layer_getLonLatFromViewPortPx ly (xy evt) = Some loc ->
     origin s = Some o -> dragGeometry s = Some d -> heap s !! d = Some g ->
     radius s = Some 0 ->
     let p := Point_new (lon loc) (lat loc) in
     let newAngle := Math_atan2 (y p - y o) (x p - x o) * (180 / Math_PI) in
     let newRadius := Point_distanceTo p o in
     let k := newRadius / 0 in
     exists s',
       move evt s = Ok tt s' /\
       heap s' !! d = Some (geom_resize k o
                              (geom_rotate (newAngle - angle s) o g)) /\
       log s' = log s ++ [GeomRotate d (newAngle - angle s) o;
                          GeomResize d k o; DrawFeature (feature s)] /\
       ((0 <? newRadius) = true -> k = infinity) /\
       ((newRadius =? 0) = true -> k = nan)).
Proof.
  split.
  - intros s e0 e1 tpl T ly loc0 loc1 b Hg Hh Hl Hloc0 Hloc1 Hb Hw
      o p D A d placed.
    pose proof (down_ok s e0 tpl T ly loc0 b Hg Hh Hl Hloc0 Hb) as Hdown.
    set (s1 := match callbacks s !! "create" with
               | Some fn => _ | None => _ end) in Hdown.
    assert (geometry s1 = Some tpl /\ layer s1 = Some ly /\
            origin s1 = Some o /\ dragGeometry s1 = Some d /\
            heap s1 !! d = Some placed /\ radius s1 = Some 0 /\
            angle s1 = angle s /\ feature s1 = Some (mkFeature d) /\
            d < length (heap s1))
      as (Hg1 & Hl1 & Ho1 & Hd1 & Hh1 & Hr1 & Ha1 & Hf1 & Hlt).
    { subst s1. destruct (callbacks s !! "create"); simpl; rewrite Hw;
        repeat split; try assumption; try reflexivity.
      - rewrite lookup_app_l by (rewrite length_app; simpl; lia).
        apply lookup_last.
      - rewrite !length_app; simpl; lia.
      - apply lookup_last.
      - rewrite length_app; simpl; lia. }
    exists s1. eexists. split; [exact Hdown|].
    split; [exact Ho1|]. split; [exact Hr1|]. split; [exact Hd1|].
    split; [exact Hh1|].
    split; [eapply move_ok; eassumption|].
    simpl. rewrite Ha1, Hf1.
    split; [apply list_lookup_insert_eq; exact Hlt|].
    split; [reflexivity|].
    split; [apply div_positive_by_zero | apply div_zero_by_zero].
  - intros s evt tpl ly loc o d g Hg Hl Hloc Ho Hd Hh Hr p newAngle newRadius k.
    eexists. split; [eapply move_ok; eassumption|]. simpl.
    split; [apply list_lookup_insert_eq; eapply lookup_lt_Some; eassumption|].
    split; [reflexivity|].
    split; [apply div_positive_by_zero | apply div_zero_by_zero].
Qed.

(** ** Preconditions *)

(** C5, as amended: with no template set, start is a silent no-op and
    move is a silent no-op: the state is unchanged, nothing is called on
    the host, no error is raised. *)
Theorem no_template_is_noop s evt :
  geometry s = None -> down evt s = Ok tt s /\ move evt s = Ok tt s.
Proof.
  intros Hg. split; [apply down_no_template, Hg|].
  unfold move, bind, get. rewrite Hg. reflexivity.
Qed.

(** ** The template *)

(** C6: no call mutates the template.  After any sequence of down, move,
    up, out and cancel calls the template still refers to the same,
    unchanged object, provided it was not the working shape itself to
    begin with; and the next start clones it into a fresh object that
    differs from the template and is the translated clone of the
    original template, whatever the earlier sessions did. *)
Theorem template_never_mutated s cs evt tpl T ly loc b :
  geometry s = Some tpl -> heap s !! tpl = Some T ->
  dragGeometry s <> Some tpl -> layer s = Some ly ->
  layer_getLonLatFromViewPortPx ly (xy evt) = Some loc ->
  geom_bounds (geom_calculateBounds (geom_clone T)) = Some b ->
  let s' := steps cs s in
  geometry s' = Some tpl /\ heap s' !! tpl = Some T /\
  exists s1,
    down evt s' = Ok tt s1 /\
    dragGeometry s1 = Some (length (heap s')) /\
    length (heap s') <> tpl /\
    heap s1 !! length (heap s') =
      Some (geom_move (lon loc - b_left b) (lat loc - b_bottom b)
              (geom_calculateBounds (geom_clone T))) /\
    heap s1 !! tpl = Some T.
Proof.
  intros Hg Hh Hd Hl Hloc Hb s'.
  assert (template_kept tpl T (Some ly) s') as (Hg' & Hh' & Hd' & Hl').
  { apply kept_steps. repeat split; assumption. }
  split; [exact Hg'|]. split; [exact Hh'|].
  pose proof (lookup_lt_Some _ _ _ Hh') as Hlt.
  eexists. split; [eapply down_ok; eassumption|].
  destruct (callbacks s' !! "create"); simpl.
  - split; [reflexivity|]. split; [lia|]. split.
    + rewrite lookup_app_l by (rewrite length_app; simpl; lia).
      apply lookup_last.
    + rewrite !lookup_app_l by (rewrite ?length_app; simpl; lia). exact Hh'.
  - split; [reflexivity|]. split; [lia|]. split.
    + apply lookup_last.
    + rewrite lookup_app_l by lia. exact Hh'.
Qed.

(** ** The start of a session *)


(** ** The end of a session *)

(** C8: cancel during a session calls the function registered under
    "cancel" on a clone of the working shape, a new object that is not
    the working shape, which stays as it was; then it finalizes as end
    does: the origin is absent, the angle is 0, and apart from the store
    and the log the handler is in the state that up leaves. *)
Theorem cancel_delivers_clone_then_finalizes s evt tpl ly fn d g :
  geometry s = Some tpl -> layer s = Some ly ->
  callbacks s !! "cancel" = Some fn ->
  dragGeometry s = Some d -> heap s !! d = Some g ->
  let c := length (heap s) in
  exists s',
    cancel s = Ok tt s' /\
    log s' = log s ++ [RendererClear; DestroyFeatures; GeomClone d c;
                       Fire "cancel" fn [VGeometry c]] /\
    heap s' !! c = Some (geom_clone g) /\
    c <> d /\ heap s' !! d = Some g /\ dragGeometry s' = Some d /\
    origin s' = None /\ angle s' = 0 /\
    set_log (log s) (set_heap (heap s) s') = final (up evt s).
Proof.
  intros Hg Hl Hc Hd Hh c.
  pose proof (lookup_lt_Some _ _ _ Hh) as Hlt.
  eexists. split; [eapply cancel_ok; eassumption|].
  simpl. rewrite Hl. repeat split.
  - apply lookup_last.
  - subst c. lia.
  - rewrite lookup_app_l by exact Hlt. exact Hh.
  - exact Hd.
Qed.

(** C9, as amended: in every state, end resets the origin to absent and
    the angle to 0 and calls nothing, so no cancel event, and calling end
    again changes nothing and raises no error; cancel followed by end
    raises no error and leaves the handler idle whenever no template is
    set, or no cancel callback is registered, or a working shape
    exists. *)
Theorem finalize_is_idempotent s e1 e2 :
  (exists s1, up e1 s = Ok tt s1 /\ origin s1 = None /\ angle s1 = 0 /\
              log s1 = log s /\ up e2 s1 = Ok tt s1 /\ out e2 s1 = Ok tt s1) /\
  (geometry s = None \/ callbacks s !! "cancel" = None \/
     (exists d g, dragGeometry s = Some d /\ heap s !! d = Some g) ->
   exists s1, cancel s = Ok tt s1 /\ origin s1 = None /\ angle s1 = 0 /\
              up e1 s1 = Ok tt s1).
Proof.
  split.
  - eexists. split; [apply finalize_ok|]. repeat split.
  - intros Hcase.
    assert (exists s0, callback "cancel" None s = Ok tt s0) as [s0 Hs0].
    { destruct (geometry s) as [tpl|] eqn:Hg.
      - destruct (callbacks s !! "cancel") as [fn|] eqn:Hc.
        + destruct Hcase as [?|[?|(d & g & Hd & Hh)]]; try discriminate.
          eexists. eapply callback_delivers; eassumption.
        + eexists. eapply callback_unregistered; eassumption.
      - eexists. apply callback_no_template, Hg. }
    eexists. split.
    + unfold cancel, bind. rewrite Hs0. apply finalize_ok.
    + repeat split.
Qed.

(** C10: finalization resets only the origin and the angle; the radius,
    the working shape and the store are retained.  So after an end, with
    the template still set, a cancel again calls the cancel callback, on
    a clone of the shape the ended session left. *)
Theorem cancel_after_end_delivers_previous_shape s evt tpl ly fn d g :
  geometry s = Some tpl -> layer s = Some ly ->
  callbacks s !! "cancel" = Some fn ->
  dragGeometry s = Some d -> heap s !! d = Some g ->
  let c := length (heap s) in
  exists s1 s2,
    up evt s = Ok tt s1 /\
    origin s1 = None /\ angle s1 = 0 /\
    radius s1 = radius s /\ dragGeometry s1 = Some d /\
    heap s1 = heap s /\ feature s1 = feature s /\
    geometry s1 = Some tpl /\ log s1 = log s /\
    cancel s1 = Ok tt s2 /\
    log s2 = log s ++ [RendererClear; DestroyFeatures; GeomClone d c;
                       Fire "cancel" fn [VGeometry c]] /\
    heap s2 !! c = Some (geom_clone g).
Proof.
  intros Hg Hl Hc Hd Hh c.
  eexists. eexists. split; [apply finalize_ok|]. simpl.
  repeat split; try assumption.
  - eapply cancel_ok; simpl; eassumption.
  - simpl. rewrite Hl. reflexivity.
  - simpl. apply lookup_last.
Qed.

End HandlerProperties.

(** * The handler on the reference host *)

Section OnReferenceHost.

Import RefHost Drag.

(** Splits a conjunction of closed facts and evaluates each of them. *)
Ltac evaluate :=
  repeat match goal with |- _ /\ _ => split end;
  try (vm_compute; reflexivity).

(** The scenario of the specification: a template of width 10 dragged
    from (0, 0); the pointer goes to (10, 0), to (0, 10), to (0, 20).  The
    angles are 0, 90, 90 degrees, the scale factors 1, 1, 2. *)
Example scenario :
  radius pressed = Some 10 /\
  log (steps [Move (at_px 10 0); Move (at_px 0 10); Move (at_px 0 20)] pressed)
  = log pressed ++
    [GeomRotate 1%nat 0 (mkPoint 0 0); GeomResize 1%nat 1 (mkPoint 0 0);
     DrawFeature (Some (mkFeature 1%nat));
     GeomRotate 1%nat 90 (mkPoint 0 0); GeomResize 1%nat 1 (mkPoint 0 0);
     DrawFeature (Some (mkFeature 1%nat));
     GeomRotate 1%nat 0 (mkPoint 0 0); GeomResize 1%nat 2 (mkPoint 0 0);
     DrawFeature (Some (mkFeature 1%nat))].
Proof. evaluate. Qed.

Lemma move_rotates_then_scales_witness :
  exists s', move (at_px 0 10) pressed = Ok tt s' /\
             angle s' = 90 /\ radius s' = Some 10.
Proof.
  destruct (move_rotates_then_scales pressed (at_px 0 10) 0%nat
              (mkSketchLayer true) (mkLonLat 0 10) (mkPoint 0 0) 1%nat
              (mkCollection [mkPoint 0 0; mkPoint 10 0; mkPoint 10 5] None) 10)
    as (s' & Hmove & Ha & Hr & _); try reflexivity.
  exists s'. split; [exact Hmove|]. split; [rewrite Ha|rewrite Hr]; reflexivity.
Defined.

(** C2 fails as stated: the segment has native width 10; the drag starts
    at its left end and the first move takes the pointer straight up to
    distance 5.  The scale factor is 5 / 10, but the shape was first
    turned upright, and its horizontal width is then below 1, not 5. *)
Lemma first_move_width_counterexample :
  width segment = Some 10 /\
  down (at_px 0 0) (idle segment) = Ok tt segment_pressed /\
  radius segment_pressed = Some 10 /\
  move (at_px 0 5) segment_pressed = Ok tt segment_dragged /\
  radius segment_dragged = Some 5 /\
  log segment_dragged =
    log segment_pressed ++ [GeomRotate 1%nat 90 (mkPoint 0 0);
                            GeomResize 1%nat 0.5 (mkPoint 0 0);
                            DrawFeature (Some (mkFeature 1%nat))] /\
  exists w, working_width segment_dragged = Some w /\ (w <? 1) = true.
Proof.
  evaluate. eexists. split; vm_compute; reflexivity.
Qed.

Lemma first_move_scales_by_ratio_witness :
  exists s1 s2,
    down (at_px 0 0) (idle segment) = Ok tt s1 /\ radius s1 = Some 10 /\
    move (at_px 0 5) s1 = Ok tt s2 /\ radius s2 = Some 5 /\
    heap s2 !! 1%nat =
      Some (resize 0.5 (mkPoint 0 0)
              (rotate 90 (mkPoint 0 0)
                 (move_by 0 0 (calculateBounds (clone segment))))).
Proof.
  destruct (first_move_scales_by_ratio (idle segment) (at_px 0 0) (at_px 0 5)
              0%nat segment (mkSketchLayer true) (mkLonLat 0 0) (mkLonLat 0 5)
              (mkBounds 0 0 10 0))
    as (s1 & s2 & Hd & Hr1 & Hm & Hr2 & Hh & _); try reflexivity.
  exists s1, s2. repeat split; assumption.
Defined.

(** C3 fails as stated: a template of width 0 is accepted at start, which
    opens a session with radius 0; the first move then scales by 5 / 0 =
    Infinity and the coordinates of the working shape become NaN. *)
Lemma zero_radius_counterexample :
  width dot = Some 0 /\
  down (at_px 1 1) (idle dot) = Ok tt dot_pressed /\
  origin dot_pressed = Some (mkPoint 1 1) /\
  radius dot_pressed = Some 0 /\
  heap dot_pressed !! 1%nat = Some (mkCollection [mkPoint 1 1] None) /\
  move (at_px 6 1) dot_pressed = Ok tt dot_dragged /\
  log dot_dragged =
    log dot_pressed ++ [GeomRotate 1%nat 0 (mkPoint 1 1);
                        GeomResize 1%nat infinity (mkPoint 1 1);
                        DrawFeature (Some (mkFeature 1%nat))] /\
  heap dot_dragged !! 1%nat = Some (mkCollection [mkPoint nan nan] None).
Proof. evaluate. Qed.

Lemma zero_radius_scale_is_unguarded_witness :
  (exists s1 s2,
     down (at_px 1 1) (idle dot) = Ok tt s1 /\ radius s1 = Some 0 /\
     move (at_px 6 1) s1 = Ok tt s2 /\
     heap s2 !! 1%nat =
       Some (resize infinity (mkPoint 1 1)
               (rotate 0 (mkPoint 1 1) (mkCollection [mkPoint 1 1] None)))) /\
  (exists s', move (at_px 6 1) dot_pressed = Ok tt s' /\
              heap s' !! 1%nat =
                Some (resize infinity (mkPoint 1 1)
                        (rotate 0 (mkPoint 1 1)
                           (mkCollection [mkPoint 1 1] None)))).
Proof.
  destruct (@zero_radius_scale_is_unguarded Collection SketchLayer host)
    as [Hstart Hmove]. split.
  - destruct (Hstart (idle dot) (at_px 1 1) (at_px 6 1) 0%nat dot
                (mkSketchLayer true) (mkLonLat 1 1) (mkLonLat 6 1)
                (mkBounds 3 4 3 4))
      as (s1 & s2 & Hd & _ & Hr & _ & _ & Hm & Hh & _); try reflexivity.
    exists s1, s2. repeat split; assumption.
  - destruct (Hmove dot_pressed (at_px 6 1) 0%nat (mkSketchLayer true)
                (mkLonLat 6 1) (mkPoint 1 1) 1%nat
                (mkCollection [mkPoint 1 1] None))
      as (s' & Hm & Hh & _); try reflexivity.
    exists s'. split; assumption.
Defined.

(** C4 at a failing input: [down] passes the array [origin, feature] to
    [callback], and the function registered under "create" is applied to
    a one-element array holding a clone of the working shape (location
    2), neither the origin nor the feature, whose geometry is the working
    shape itself (location 1). *)
Theorem create_callback_receives_a_clone :
  down (at_px 0 0) (idle triangle) = Ok tt pressed /\
  origin pressed = Some (mkPoint 0 0) /\
  feature pressed = Some (mkFeature 1%nat) /\
  dragGeometry pressed = Some 1%nat /\
  last (log pressed) = Some (Fire "create" 1 [VGeometry 2%nat]) /\
  [VGeometry 2%nat] <> [VPoint (mkPoint 0 0); VFeature (mkFeature 1%nat)].
Proof. evaluate. discriminate. Qed.

(** C5 fails as stated: with a template set and no session active (the
    origin is absent), a move raises a TypeError, before the first drag
    and after a drag has ended alike. *)
Lemma move_without_session_counterexample :
  origin (idle triangle) = None /\
  move (at_px 5 5) (idle triangle) = Throw TypeError (idle triangle) /\
  exists s, up (at_px 0 10) dragged = Ok tt s /\ origin s = None /\
            move (at_px 5 5) s = Throw TypeError s.
Proof.
  split; [reflexivity|]. split; [vm_compute; reflexivity|].
  eexists. split; [reflexivity|]. split; vm_compute; reflexivity.
Qed.

Lemma no_template_is_noop_witness :
  down (at_px 5 5) bare = Ok tt bare /\ move (at_px 5 5) bare = Ok tt bare.
Proof. apply (no_template_is_noop bare). reflexivity. Defined.

Lemma template_never_mutated_witness :
  heap (steps history (idle triangle)) !! 0%nat = Some triangle /\
  exists s1, down (at_px 4 4) (steps history (idle triangle)) = Ok tt s1 /\
             heap s1 !! 0%nat = Some triangle.
Proof.
  destruct (template_never_mutated (idle triangle) history (at_px 4 4) 0%nat
              triangle (mkSketchLayer true) (mkLonLat 4 4) (mkBounds 3 4 13 9))
    as (_ & Hh & s1 & Hd & _ & _ & _ & Hh1);
    try reflexivity; [discriminate|].
  split; [exact Hh|]. exists s1. split; assumption.
Defined.



Lemma cancel_delivers_clone_then_finalizes_witness :
  exists s', cancel dragged = Ok tt s' /\
             last (log s') = Some (Fire "cancel" 2 [VGeometry 3%nat]) /\
             heap s' !! 3%nat = clone <$> heap dragged !! 1%nat /\
             origin s' = None /\ angle s' = 0.
Proof.
  destruct (heap dragged !! 1%nat) as [g|] eqn:Hg; [|discriminate].
  destruct (cancel_delivers_clone_then_finalizes dragged (at_px 0 10) 0%nat
              (mkSketchLayer true) 2%nat 1%nat g)
    as (s' & Hc & Hl & Hh & _ & _ & _ & Ho & Ha & _); try reflexivity.
  { exact Hg. }
  exists s'. repeat split; try assumption.
  rewrite Hl. reflexivity.
Defined.

(** C9 fails as stated: before the first drag no session is active and
    there is no working shape yet; with a template set and a cancel
    callback registered, cancel raises a TypeError. *)
Lemma cancel_before_first_drag_counterexample :
  origin (idle triangle) = None /\
  dragGeometry (idle triangle) = None /\
  exists s', cancel (idle triangle) = Throw TypeError s'.
Proof.
  split; [reflexivity|]. split; [reflexivity|].
  eexists. vm_compute. reflexivity.
Qed.

Lemma finalize_is_idempotent_witness :
  (exists s1, up (at_px 0 10) (idle triangle) = Ok tt s1 /\
              origin s1 = None /\ angle s1 = 0 /\
              up (at_px 0 10) s1 = Ok tt s1) /\
  (exists s1, up (at_px 0 10) dragged = Ok tt s1 /\ origin s1 = None /\
              angle s1 = 0 /\ up (at_px 0 10) s1 = Ok tt s1) /\
  (exists s1, cancel dragged = Ok tt s1 /\ origin s1 = None /\
              up (at_px 0 10) s1 = Ok tt s1).
Proof.
  destruct (finalize_is_idempotent (idle triangle) (at_px 0 10) (at_px 0 10))
    as [(s0 & Hu0 & Ho0 & Ha0 & _ & Hu0' & _) _].
  destruct (finalize_is_idempotent dragged (at_px 0 10) (at_px 0 10))
    as [(s1 & Hu & Ho & Ha & _ & Hu' & _) Hcancel].
  destruct Hcancel as (s2 & Hc & Ho2 & _ & Hu2).
  { right. right. eexists. eexists. split; reflexivity. }
  split; [exists s0; repeat split; assumption|].
  split; [exists s1|exists s2]; repeat split; assumption.
Defined.

Lemma cancel_after_end_delivers_previous_shape_witness :
  exists s1 s2,
    up (at_px 0 10) dragged = Ok tt s1 /\ radius s1 = Some 10 /\
    cancel s1 = Ok tt s2 /\
    last (log s2) = Some (Fire "cancel" 2 [VGeometry 3%nat]) /\
    heap s2 !! 3%nat = clone <$> heap dragged !! 1%nat.
Proof.
  destruct (heap dragged !! 1%nat) as [g|] eqn:Hg; [|discriminate].
  destruct (cancel_after_end_delivers_previous_shape dragged (at_px 0 10)
              0%nat (mkSketchLayer true) 2%nat 1%nat g)
    as (s1 & s2 & Hu & _ & _ & Hr & _ & _ & _ & _ & _ & Hc & Hl & Hh);
    try reflexivity.
  { exact Hg. }
  exists s1, s2. repeat split; try assumption.
  rewrite Hl. reflexivity.
Defined.

End OnReferenceHost.

(** * Properties of programs over the handler, for every host *)

Section ProgramProperties.

Context {G Layer : Type} `{!Host G Layer}.
Implicit Types (s : state G Layer) (evt : Event).

Ltac unfold_all :=
  unfold perform, cancel, up, out, finalize, down, move, callback, clear,
    measureWidth, calculateAngle, bounds_at, mutate, clone_at, load, emit,
    deref, modify, get, throw, bind, ret, final.

(** One case split on the innermost option or boolean that decides the
    next step of a computation. *)
Ltac split_next :=
  match goal with
  | |- context [match ?v with Some _ => _ | None => _ end] =>
    lazymatch v with
    | context [match _ with _ => _ end] => fail
    | _ => destruct v eqn:?
    end
  | |- context [if ?v then _ else _] =>
    lazymatch v with
    | context [match _ with _ => _ end] => fail
    | _ => destruct v eqn:?
    end
  end.

Ltac lengths :=
  repeat first [rewrite length_insert | rewrite length_app]; simpl in *; lia.

Ltac lookups :=
  repeat first
    [ rewrite list_lookup_insert_ne by naive_solver
    | rewrite list_lookup_insert_ne by lengths
    | rewrite lookup_app_l by lengths ];
  try reflexivity.

(** The callback calls among a concrete list of events. *)
Ltac fires :=
  let Hin := fresh "Hin" in
  intros ? ? ? Hin; simpl in Hin;
  repeat match type of Hin with
         | _ \/ _ => destruct Hin as [Hin|Hin]
         end;
  try discriminate Hin; try contradiction;
  injection Hin as <- <- <-;
  (split; [unfold own_name; tauto | eexists; (split; [reflexivity | lengths])]).

(** The footprint of a call, read off its final state. *)
Ltac settle_footprint :=
  unfold footprint, fires_fresh; simpl;
  repeat match goal with |- _ /\ _ => split end;
  try reflexivity;
  try lengths;
  try (intros; lookups; fail);
  try (left; reflexivity);
  try (right; eexists; (split; [reflexivity | lengths]));
  try (exists []; (split; [symmetry; apply app_nil_r | intros ? ? ? []]));
  try (match goal with
       | |- exists evs, ?L = ?l0 ++ evs /\ _ => exists (drop (length l0) L)
       end;
       rewrite <- ?app_assoc; rewrite drop_app_length;
       (split; [reflexivity | fires])).

(** Well-formedness of the final state from that of the initial one. *)
Ltac settle_well_formed :=
  let Hd := fresh "Hd" in
  let Ho := fresh "Ho" in
  unfold well_formed; simpl; intros [Hd Ho]; split;
  [ let Hx := fresh "Hx" in
    intros ? Hx;
    first [ specialize (Hd _ Hx); lengths
          | injection Hx as <-; try specialize (Hd _ eq_refl); lengths ]
  | let Hx := fresh "Hx" in
    intros ? Hx; first [discriminate Hx | eauto] ].

Lemma call_footprint c s :
  footprint own_name s (final (perform c s)) /\
  (well_formed s -> well_formed (final (perform c s))).
Proof.
  destruct s, c; simpl in *; unfold_all; simpl;
    repeat (split_next; simpl);
    (split; [settle_footprint | try settle_well_formed]).
Qed.

Lemma invoke_well_formed a s :
  well_formed s -> well_formed (final (invoke a s)).
Proof.
  destruct a as [c|g]; [apply call_footprint|].
  intros [Hd Ho]. split; [exact Hd | exact Ho].
Qed.

(** ** Callbacks *)

(** X1: whatever the state, a call of the drag protocol fires callbacks
    only under the names create and cancel, each on exactly one
    argument, a geometry that was allocated during that very call. *)
Theorem callbacks_receive_new_objects c s :
  exists evs,
    log (final (perform c s)) = log s ++ evs /\
    forall name fn args, In (Fire name fn args) evs ->
      (name = "create" \/ name = "cancel") /\
      exists k, args = [VGeometry k] /\
                length (heap s) <= k < length (heap (final (perform c s))).
Proof.
  destruct (call_footprint c s) as [(_ & _ & _ & _ & _ & _ & Hlog) _].
  exact Hlog.
Qed.

(** X2: after an up, with a function registered under "done" and a
    working shape, [callback "done"] clears the sketch layer and applies
    the function to a clone of the shape the drag ended with, whatever
    arguments it was given. *)
Theorem done_delivers_the_finished_shape s evt args tpl ly fn d g :
  geometry s = Some tpl -> layer s = Some ly ->
  callbacks s !! "done" = Some fn ->
  dragGeometry s = Some d -> heap s !! d = Some g ->
  let c := length (heap s) in
  exists s1 s2,
    up evt s = Ok tt s1 /\
    callback "done" args s1 = Ok tt s2 /\
    log s2 = log s ++ [RendererClear; DestroyFeatures; GeomClone d c;
                       Fire "done" fn [VGeometry c]] /\
    heap s2 !! c = Some (geom_clone g) /\ heap s2 !! d = Some g /\
    origin s2 = None /\ angle s2 = 0.
Proof.
  intros Hg Hl Hc Hd Hh c.
  pose proof (lookup_lt_Some _ _ _ Hh) as Hlt.
  eexists. eexists. split; [apply finalize_ok|].
  split; [eapply callback_delivers; simpl; eassumption|].
  simpl. rewrite Hl. split; [reflexivity|].
  split; [apply lookup_last|].
  split; [rewrite lookup_app_l by exact Hlt; exact Hh|].
  split; reflexivity.
Qed.

(** ** The store *)

Lemma invoke_leaves_others a s l g :
  heap s !! l = Some g -> dragGeometry s <> Some l ->
  heap (final (invoke a s)) !! l = Some g /\
  dragGeometry (final (invoke a s)) <> Some l.
Proof.
  intros Hl Hne. pose proof (lookup_lt_Some _ _ _ Hl) as Hlt.
  destruct a as [c|t]; [|split; assumption]. unfold invoke.
  destruct (call_footprint c s) as [(_ & _ & _ & _ & Hsame & Hdrag & _) _].
  split; [etrans; [apply (Hsame l Hlt Hne) | exact Hl]|].
  destruct Hdrag as [->|(d & -> & Hfresh)]; [exact Hne|].
  intros [= ->]. lia.
Qed.

(** X3: the handler mutates no geometry but its current working shape.
    An object of the store that is not the working shape (a clone handed
    to a callback, the shape of an earlier drag, the template) keeps its
    value and never becomes the working shape, through every sequence of
    down, move, up, out, cancel and setGeometry. *)
Theorem only_the_working_shape_is_mutated p s l g :
  heap s !! l = Some g -> dragGeometry s <> Some l ->
  heap (program p s) !! l = Some g /\ dragGeometry (program p s) <> Some l.
Proof.
  revert s. induction p as [|a p IH]; intros s Hl Hne; [split; assumption|].
  simpl. destruct (invoke_leaves_others a s l g Hl Hne) as [Hl' Hne'].
  apply IH; assumption.
Qed.

(** ** Sessions *)

Lemma program_well_formed p s : well_formed s -> well_formed (program p s).
Proof.
  revert s. induction p as [|a p IH]; intros s Hwf; [exact Hwf|].
  simpl. apply IH, invoke_well_formed, Hwf.
Qed.

Lemma move_returns s evt tpl ly loc o d g :
  geometry s = Some tpl -> layer s = Some ly ->
  layer_getLonLatFromViewPortPx ly (xy evt) = Some loc ->
  origin s = Some o -> dragGeometry s = Some d -> heap s !! d = Some g ->
  exists s', move evt s = Ok tt s'.
Proof.
  intros Hg Hl Hloc Ho Hd Hh. pose proof (lookup_lt_Some _ _ _ Hh) as Hlt.
  destruct s; simpl in *; subst. unfold_all; simpl.
  rewrite Hloc; simpl. rewrite Hh; simpl.
  rewrite list_lookup_insert_eq by exact Hlt. simpl. eexists. reflexivity.
Qed.

(** X4: every state a program reaches from a well-formed one (such as
    a handler on which nothing was called yet) is well formed: the
    working shape, when set, is an object of the store, and an origin is
    only present together with a working shape.  So while a session is
    active, with the template set and the pointer position convertible,
    the working shape is there to be transformed; a cancel does not
    raise an error, and neither does a move once the sketch feature is
    set. *)
Theorem active_session_never_raises p s evt tpl ly loc o f :
  well_formed s ->
  let s' := program p s in
  well_formed s' /\
  (geometry s' = Some tpl -> layer s' = Some ly ->
   layer_getLonLatFromViewPortPx ly (xy evt) = Some loc ->
   origin s' = Some o ->
   (exists d g, dragGeometry s' = Some d /\ heap s' !! d = Some g) /\
   (feature s' = Some f -> exists s1, move evt s' = Ok tt s1) /\
   (exists s2, cancel s' = Ok tt s2)).
Proof.
  intros Hwf s'. pose proof (program_well_formed p s Hwf) as Hwf'.
  fold s' in Hwf'. split; [exact Hwf'|]. intros Hg Hl Hloc Ho.
  destruct Hwf' as [Hd Hso].
  destruct (Hso o Ho) as [d Hdrag]. specialize (Hd d Hdrag).
  destruct (lookup_lt_is_Some_2 _ _ Hd) as [g Hh].
  split; [exists d, g; split; assumption|]. split.
  - intros _. eapply move_returns; eassumption.
  - destruct (callbacks s' !! "cancel") as [fn|] eqn:Hc.
    + eexists. eapply cancel_ok; eassumption.
    + unfold cancel, bind.
      rewrite (callback_unregistered s' "cancel" None tpl Hg Hc).
      eexists. reflexivity.
Qed.

(** X5: with no template set the handler is inert.  Through every
    sequence of down, move, up, out and cancel nothing is called on the
    host, no callback is fired even when one is registered, and the
    store, the working shape, the feature and the radius stay as they
    are; the only change is the finalization by up, out and cancel. *)
Theorem without_template_inert cs s :
  geometry s = None ->
  let s' := steps cs s in
  log s' = log s /\ heap s' = heap s /\ geometry s' = None /\
  dragGeometry s' = dragGeometry s /\ feature s' = feature s /\
  radius s' = radius s /\
  (s' = s \/ (origin s' = None /\ angle s' = 0)).
Proof.
  intros Hg.
  assert (forall s0, geometry s0 = None ->
            log (steps cs s0) = log s0 /\ heap (steps cs s0) = heap s0 /\
            geometry (steps cs s0) = None /\
            dragGeometry (steps cs s0) = dragGeometry s0 /\
            feature (steps cs s0) = feature s0 /\
            radius (steps cs s0) = radius s0 /\
            (origin s0 = None -> angle s0 = 0 ->
             origin (steps cs s0) = None /\ angle (steps cs s0) = 0) /\
            (steps cs s0 = s0 \/
             (origin (steps cs s0) = None /\ angle (steps cs s0) = 0)))
    as Hall.
  { induction cs as [|c cs IH]; intros s0 Hg0.
    - simpl. repeat split; auto.
    - assert (final (perform c s0) = s0 \/
              final (perform c s0) = set_angle 0 (set_origin None s0)) as Hc.
      { destruct c; simpl.
        - left. rewrite (down_no_template s0 evt Hg0). reflexivity.
        - left. unfold move, bind, get. rewrite Hg0. reflexivity.
        - right. reflexivity.
        - right. reflexivity.
        - right. unfold cancel, bind.
          rewrite (callback_no_template s0 "cancel" None Hg0). reflexivity. }
      change (steps (c :: cs) s0) with (steps cs (final (perform c s0))).
      destruct Hc as [->| ->]; [apply IH, Hg0|].
      destruct (IH (set_angle 0 (set_origin None s0)) Hg0)
        as (H1 & H2 & H3 & H4 & H5 & H6 & H7 & H8).
      destruct (H7 eq_refl eq_refl) as [H9 H10].
      repeat split; try assumption. right. split; assumption. }
  destruct (Hall s Hg) as (H1 & H2 & H3 & H4 & H5 & H6 & _ & H8).
  repeat split; assumption.
Qed.

(** ** The template *)

(** X6: a change of template during a drag waits for the next start.
    With a template set, replacing it by another one changes nothing in
    what a move or a cancel does: the same outcome, on the same working
    shape, with the same host calls. *)
Theorem template_change_waits_for_next_start s evt t1 t2 :
  geometry s = Some t1 ->
  move evt (final (setGeometry (Some t2) s))
    = in_state (set_geometry (Some t2)) (move evt s) /\
  cancel (final (setGeometry (Some t2) s))
    = in_state (set_geometry (Some t2)) (cancel s).
Proof.
  intros Hg. destruct s; simpl in *; subst. split.
  - unfold_all; simpl. repeat (split_next; simpl); reflexivity.
  - unfold_all; unfold setGeometry, modify; simpl.
    repeat (split_next; simpl); reflexivity.
Qed.

(** ** Failures *)

(** X7: a template whose bounds are still null after calculateBounds
    makes the start raise a TypeError half-way, in measureWidth.  By then
    the layer is cleared, the working shape is replaced by the new clone,
    with its bounds recomputed, and the origin is set; the radius, the
    angle and the feature are still the ones of before, no feature is
    added to the layer, the clone is not moved and no create callback
    fires. *)
Theorem start_without_bounds_stops_midway s e0 tpl T ly loc0 :
  geometry s = Some tpl -> heap s !! tpl = Some T -> layer s = Some ly ->
  layer_getLonLatFromViewPortPx ly (xy e0) = Some loc0 ->
  geom_bounds (geom_calculateBounds (geom_clone T)) = None ->
  let d := length (heap s) in
  let o := Point_new (lon loc0) (lat loc0) in
  exists s1,
    down e0 s = Throw TypeError s1 /\
    dragGeometry s1 = Some d /\
    heap s1 = heap s ++ [geom_calculateBounds (geom_clone T)] /\
    origin s1 = Some o /\
    radius s1 = radius s /\ angle s1 = angle s /\ feature s1 = feature s /\
    geometry s1 = geometry s /\
    log s1 = log s ++ [RendererClear; DestroyFeatures; GeomClone tpl d;
                       GeomCalculateBounds d].
Proof.
  intros Hg Hh Hl Hloc0 Hb d o. subst d.
  destruct s; simpl in *; subst.
  eexists. split.
  { unfold_all; simpl. rewrite Hh; simpl. rewrite Hloc0; simpl.
    rewrite lookup_last; simpl. rewrite insert_last, lookup_last; simpl.
    rewrite Hb; simpl. reflexivity. }
  simpl. repeat (split; [reflexivity|]).
  rewrite <- !app_assoc. reflexivity.
Qed.

(** X8: a move that cannot find the sketch layer, the map position of
    the pointer or the origin raises a TypeError before it has changed
    anything: the state is the one before the call. *)
Theorem move_fails_before_any_change s evt tpl :
  geometry s = Some tpl ->
  layer s = None \/
  (exists ly, layer s = Some ly /\
              (layer_getLonLatFromViewPortPx ly (xy evt) = None \/
               origin s = None)) ->
  move evt s = Throw TypeError s.
Proof.
  intros Hg Hcase. unfold_all. rewrite Hg.
  destruct Hcase as [Hl|(ly & Hl & [Hloc|Ho])]; rewrite Hl; simpl;
    [reflexivity | rewrite Hloc; reflexivity |].
  destruct (layer_getLonLatFromViewPortPx ly (xy evt)); simpl;
    [rewrite Ho|]; reflexivity.
Qed.

(** ** Numbers *)

Lemma sub_zero (v : float) : v - 0 = v.
Proof.
  apply Prim2SF_inj. rewrite FloatAxioms.sub_spec.
  change (Prim2SF 0) with (S754_zero false).
  destruct (Prim2SF v) as [[]|[]| |[] m e]; reflexivity.
Qed.

Lemma abs_not_negative (v : float) : (Math_abs v <? 0) = false.
Proof.
  unfold Math_abs. rewrite FloatAxioms.ltb_spec, FloatAxioms.abs_spec.
  change (Prim2SF 0) with (S754_zero false).
  destruct (Prim2SF v) as [[]|[]| |[] m e]; reflexivity.
Qed.

(** X9: [measureWidth] recomputes the bounds of the working shape in
    place, changes nothing else, and returns a width that is never
    negative. *)
Theorem measureWidth_is_never_negative s d g b :
  dragGeometry s = Some d -> heap s !! d = Some g ->
  geom_bounds (geom_calculateBounds g) = Some b ->
  exists w,
    measureWidth s =
      Ok w (set_log (log s ++ [GeomCalculateBounds d])
              (set_heap (<[d := geom_calculateBounds g]> (heap s)) s)) /\
    w = Math_abs (b_right b - b_left b) /\ (w <? 0) = false.
Proof.
  intros Hd Hh Hb. pose proof (lookup_lt_Some _ _ _ Hh) as Hlt.
  eexists. split; [|split; [reflexivity | apply abs_not_negative]].
  destruct s; simpl in *; subst. unfold_all; simpl. rewrite Hh; simpl.
  rewrite list_lookup_insert_eq by exact Hlt. simpl. rewrite Hb. reflexivity.
Qed.

(** X10: finalization is what makes the next drag start unrotated:
    [down] keeps the stored angle, and after an up the first move of the
    next session rotates the new clone by exactly the pointer angle,
    whatever angle the earlier session had reached. *)
Theorem next_session_starts_unrotated s e e0 e1 tpl T ly loc0 loc1 b :
  geometry s = Some tpl -> heap s !! tpl = Some T -> layer s = Some ly ->
  layer_getLonLatFromViewPortPx ly (xy e0) = Some loc0 ->
  layer_getLonLatFromViewPortPx ly (xy e1) = Some loc1 ->
  geom_bounds (geom_calculateBounds (geom_clone T)) = Some b ->
  let W := Math_abs (b_right b - b_left b) in
  let o := Point_new (lon loc0) (lat loc0) in
  let p := Point_new (lon loc1) (lat loc1) in
  let D := Point_distanceTo p o in
  let A := Math_atan2 (y p - y o) (x p - x o) * (180 / Math_PI) in
  let d := length (heap s) in
  let placed := geom_move (lon loc0 - b_left b) (lat loc0 - b_bottom b)
                  (geom_calculateBounds (geom_clone T)) in
  exists s1 s2,
    down e0 (final (up e s)) = Ok tt s1 /\ angle s1 = 0 /\
    move e1 s1 = Ok tt s2 /\ angle s2 = A /\
    heap s2 !! d = Some (geom_resize (D / W) o (geom_rotate A o placed)) /\
    log s2 = log s1 ++ [GeomRotate d A o; GeomResize d (D / W) o;
                        DrawFeature (Some (mkFeature d))].
Proof.
  intros Hg Hh Hl Hloc0 Hloc1 Hb W o p D A d placed.
  set (s0 := final (up e s)).
  assert (geometry s0 = Some tpl /\ heap s0 = heap s /\ layer s0 = Some ly /\
          angle s0 = 0) as (Hg0 & Hh0 & Hl0 & Ha0) by (repeat split; assumption).
  assert (heap s0 !! tpl = Some T) as Hh0' by (rewrite Hh0; exact Hh).
  pose proof (down_ok s0 e0 tpl T ly loc0 b Hg0 Hh0' Hl0 Hloc0 Hb) as Hdown.
  set (s1 := match callbacks s0 !! "create" with
             | Some fn => _ | None => _ end) in Hdown.
  assert (geometry s1 = Some tpl /\ layer s1 = Some ly /\
          origin s1 = Some o /\ dragGeometry s1 = Some d /\
          heap s1 !! d = Some placed /\ radius s1 = Some W /\
          angle s1 = 0 /\ feature s1 = Some (mkFeature d) /\
          d < length (heap s1))
    as (Hg1 & Hl1 & Ho1 & Hd1 & Hh1 & Hr1 & Ha1 & Hf1 & Hlt).
  { subst s1 d. destruct (callbacks s0 !! "create"); simpl;
      repeat split; try assumption; try reflexivity.
    - rewrite lookup_app_l by (rewrite length_app; simpl; lia).
      apply lookup_last.
    - rewrite !length_app; simpl; lia.
    - apply lookup_last.
    - rewrite length_app; simpl; lia. }
  exists s1. eexists. split; [exact Hdown|]. split; [exact Ha1|].
  split; [eapply move_ok; eassumption|].
  simpl. rewrite Ha1, Hf1, sub_zero. split; [reflexivity|].
  split; [|reflexivity]. apply list_lookup_insert_eq. exact Hlt.
Qed.

(** ** What a call leaves alone *)

(** X11: under a name other than done and cancel, such as the move and
    up the drag handler reports, [callback] leaves the sketch on the
    layer: with a function registered it only clones the working shape
    and applies the function to the clone. *)
Theorem callback_keeps_the_sketch s name args tpl fn d g :
  name <> "done" -> name <> "cancel" ->
  geometry s = Some tpl -> callbacks s !! name = Some fn ->
  dragGeometry s = Some d -> heap s !! d = Some g ->
  let c := length (heap s) in
  callback name args s =
    Ok tt (set_log (log s ++ [GeomClone d c; Fire name fn [VGeometry c]])
             (set_heap (heap s ++ [geom_clone g]) s)).
Proof.
  intros Hdone Hcancel Hg Hc Hd Hh c.
  rewrite (callback_delivers s name args tpl fn d g) by assumption.
  apply String.eqb_neq in Hdone, Hcancel. rewrite Hdone, Hcancel.
  reflexivity.
Qed.

(** X12: no call of the drag protocol ever replaces the template, the
    sketch layer or the registered callbacks, whether it returns or
    raises; and the store never shrinks. *)
Theorem calls_keep_the_wiring cs s :
  geometry (steps cs s) = geometry s /\ layer (steps cs s) = layer s /\
  callbacks (steps cs s) = callbacks s /\
  length (heap s) <= length (heap (steps cs s)).
Proof.
  revert s. induction cs as [|c cs IH]; intros s; [simpl; repeat split; lia|].
  change (steps (c :: cs) s) with (steps cs (final (perform c s))).
  destruct (IH (final (perform c s))) as (Hg & Hl & Hc & Hn).
  destruct (call_footprint c s) as [(Hg' & Hl' & Hc' & Hn' & _) _].
  rewrite Hg, Hl, Hc, Hg', Hl', Hc'. repeat split. etrans; eassumption.
Qed.

(** ** Moves are absolute *)

Lemma move_reads_the_pointer s evt tpl ly loc o d g :
  geometry s = Some tpl -> layer s = Some ly ->
  layer_getLonLatFromViewPortPx ly (xy evt) = Some loc ->
  origin s = Some o -> dragGeometry s = Some d -> heap s !! d = Some g ->
  let p := Point_new (lon loc) (lat loc) in
  exists s',
    move evt s = Ok tt s' /\
    angle s' = Math_atan2 (y p - y o) (x p - x o) * (180 / Math_PI) /\
    radius s' = Some (Point_distanceTo p o) /\
    geometry s' = Some tpl /\ layer s' = Some ly /\ origin s' = Some o /\
    dragGeometry s' = Some d /\ is_Some (heap s' !! d).
Proof.
  intros Hg Hl Hloc Ho Hd Hh p. pose proof (lookup_lt_Some _ _ _ Hh) as Hlt.
  destruct s; simpl in *; subst. unfold_all; simpl.
  rewrite Hloc; simpl. rewrite Hh; simpl.
  rewrite list_lookup_insert_eq by exact Hlt. simpl.
  eexists. split; [reflexivity|]. simpl. repeat split.
  apply lookup_lt_is_Some_2. rewrite !length_insert. exact Hlt.
Qed.

(** X13: the angle and the radius a move stores depend on the pointer
    position and the origin alone.  During a session, after any moves in
    between, a move to a given position stores the same angle and radius
    as it would have stored without them, so a skipped move event leaves
    no error in them. *)
Theorem skipped_moves_leave_no_trace s evts evt tpl ly loc o d g :
  geometry s = Some tpl -> layer s = Some ly ->
  Forall (fun e => is_Some (layer_getLonLatFromViewPortPx ly (xy e))) evts ->
  layer_getLonLatFromViewPortPx ly (xy evt) = Some loc ->
  origin s = Some o -> dragGeometry s = Some d -> heap s !! d = Some g ->
  exists s1 s2,
    move evt s = Ok tt s1 /\
    move evt (steps (map Move evts) s) = Ok tt s2 /\
    angle s2 = angle s1 /\ radius s2 = radius s1 /\ origin s2 = origin s1.
Proof.
  intros Hg Hl Hevts Hloc Ho Hd Hh.
  destruct (move_reads_the_pointer s evt tpl ly loc o d g)
    as (s1 & Hm1 & Ha1 & Hr1 & _ & _ & Ho1 & _); try assumption.
  assert (let s' := steps (map Move evts) s in
          geometry s' = Some tpl /\ layer s' = Some ly /\ origin s' = Some o /\
          dragGeometry s' = Some d /\ is_Some (heap s' !! d))
    as (Hg' & Hl' & Ho' & Hd' & [g' Hh']).
  { clear Hm1 Ha1 Hr1 Ho1 s1. revert s g Hg Hl Ho Hd Hh.
    induction Hevts as [|e evts [loc' He] _ IH]; intros s g Hg Hl Ho Hd Hh.
    - simpl. repeat split; try assumption. eauto.
    - destruct (move_reads_the_pointer s e tpl ly loc' o d g)
        as (s' & Hm & _ & _ & Hg' & Hl' & Ho' & Hd' & [g' Hh']);
        try assumption.
      change (steps (map Move (e :: evts)) s)
        with (steps (map Move evts) (final (move e s))).
      rewrite Hm. simpl final. exact (IH s' g' Hg' Hl' Ho' Hd' Hh'). }
  destruct (move_reads_the_pointer _ evt tpl ly loc o d g' Hg' Hl' Hloc Ho' Hd' Hh')
    as (s2 & Hm2 & Ha2 & Hr2 & _ & _ & Ho2 & _).
  exists s1, s2. split; [exact Hm1|]. split; [exact Hm2|].
  rewrite Ha1, Ha2, Hr1, Hr2, Ho1, Ho2. repeat split.
Qed.

End ProgramProperties.

(** * Programs on the reference host *)

Section ProgramsOnReferenceHost.

Import RefHost Drag Cases.

Lemma done_delivers_the_finished_shape_witness :
  exists s1 s2,
    up (at_px 0 10) watched_dragged = Ok tt s1 /\
    callback "done" (Some [VPoint (mkPoint 0 10)]) s1 = Ok tt s2 /\
    last (log s2) = Some (Fire "done" 3 [VGeometry 3%nat]) /\
    heap s2 !! 3%nat = clone <$> heap watched_dragged !! 1%nat.
Proof.
  destruct (heap watched_dragged !! 1%nat) as [g|] eqn:Hg; [|discriminate].
  destruct (done_delivers_the_finished_shape watched_dragged (at_px 0 10)
              (Some [VPoint (mkPoint 0 10)]) 0%nat (mkSketchLayer true)
              3%nat 1%nat g)
    as (s1 & s2 & Hu & Hc & Hl & Hh & _); try reflexivity.
  { exact Hg. }
  exists s1, s2. split; [exact Hu|]. split; [exact Hc|].
  split; [rewrite Hl; reflexivity | exact Hh].
Defined.

Lemma only_the_working_shape_is_mutated_witness :
  heap pressed !! 2%nat
    = Some (mkCollection [mkPoint 0 0; mkPoint 10 0; mkPoint 10 5] None) /\
  heap (program errands pressed) !! 2%nat = heap pressed !! 2%nat /\
  dragGeometry (program errands pressed) <> Some 2%nat.
Proof.
  split; [reflexivity|].
  destruct (only_the_working_shape_is_mutated errands pressed 2%nat
              (mkCollection [mkPoint 0 0; mkPoint 10 0; mkPoint 10 5] None))
    as [Hh Hd]; [reflexivity | discriminate |].
  split; [exact Hh | exact Hd].
Defined.

Lemma active_session_never_raises_witness :
  well_formed (program opening (idle triangle)) /\
  (exists d g, dragGeometry (program opening (idle triangle)) = Some d /\
               heap (program opening (idle triangle)) !! d = Some g) /\
  (exists s1, move (at_px 7 7) (program opening (idle triangle)) = Ok tt s1) /\
  (exists s2, cancel (program opening (idle triangle)) = Ok tt s2).
Proof.
  destruct (active_session_never_raises opening (idle triangle) (at_px 7 7)
              0%nat (mkSketchLayer true) (mkLonLat 7 7) (mkPoint 0 0)
              (mkFeature 1%nat))
    as [Hwf Hrest].
  { split; [intros d [=] | intros o [=]]. }
  destruct Hrest as (Hshape & Hmove & Hcancel); try reflexivity.
  split; [exact Hwf|]. split; [exact Hshape|].
  split; [apply Hmove; reflexivity | exact Hcancel].
Defined.

Lemma without_template_inert_witness :
  log (steps history bare) = [] /\ heap (steps history bare) = [] /\
  dragGeometry (steps history bare) = None.
Proof.
  destruct (without_template_inert history bare)
    as (Hl & Hh & _ & Hd & _); [reflexivity|].
  split; [exact Hl|]. split; [exact Hh | exact Hd].
Defined.

Lemma template_change_waits_for_next_start_witness :
  move (at_px 7 7) (final (setGeometry (Some 2%nat) pressed))
    = in_state (set_geometry (Some 2%nat)) (move (at_px 7 7) pressed) /\
  cancel (final (setGeometry (Some 2%nat) pressed))
    = in_state (set_geometry (Some 2%nat)) (cancel pressed).
Proof.
  apply (template_change_waits_for_next_start pressed (at_px 7 7) 0%nat).
  reflexivity.
Defined.

Lemma start_without_bounds_stops_midway_witness :
  exists s1,
    down (at_px 2 3) (idle hollow) = Throw TypeError s1 /\
    dragGeometry s1 = Some 1%nat /\ origin s1 = Some (mkPoint 2 3) /\
    radius s1 = None /\ feature s1 = None /\
    log s1 = [RendererClear; DestroyFeatures; GeomClone 0%nat 1%nat;
              GeomCalculateBounds 1%nat].
Proof.
  destruct (start_without_bounds_stops_midway (idle hollow) (at_px 2 3)
              0%nat hollow (mkSketchLayer true) (mkLonLat 2 3))
    as (s1 & Hd & Hdrag & _ & Ho & Hr & _ & Hf & _ & Hl); try reflexivity.
  exists s1. split; [exact Hd|]. split; [exact Hdrag|]. split; [exact Ho|].
  split; [exact Hr|]. split; [exact Hf | exact Hl].
Defined.

Lemma move_fails_before_any_change_witness :
  move (at_px 5 5) (idle triangle) = Throw TypeError (idle triangle).
Proof.
  apply (move_fails_before_any_change (idle triangle) (at_px 5 5) 0%nat).
  - reflexivity.
  - right. exists (mkSketchLayer true). split; [reflexivity|].
    right. reflexivity.
Defined.

Lemma measureWidth_is_never_negative_witness :
  exists w s', measureWidth pressed = Ok w s' /\ w = 10 /\ (w <? 0) = false.
Proof.
  destruct (measureWidth_is_never_negative pressed 1%nat
              (mkCollection [mkPoint 0 0; mkPoint 10 0; mkPoint 10 5] None)
              (mkBounds 0 0 10 5))
    as (w & Hm & Hw & Hn); try reflexivity.
  exists w. eexists. split; [exact Hm|]. split; [rewrite Hw; reflexivity|].
  exact Hn.
Defined.

Lemma next_session_starts_unrotated_witness :
  angle dragged = 90 /\
  exists s1 s2,
    down (at_px 4 4) (final (up (at_px 0 10) dragged)) = Ok tt s1 /\
    move (at_px 4 9) s1 = Ok tt s2 /\ angle s2 = 90 /\
    log s2 = log s1 ++ [GeomRotate 3%nat 90 (mkPoint 4 4);
                        GeomResize 3%nat 0.5 (mkPoint 4 4);
                        DrawFeature (Some (mkFeature 3%nat))].
Proof.
  split; [reflexivity|].
  destruct (next_session_starts_unrotated dragged (at_px 0 10) (at_px 4 4)
              (at_px 4 9) 0%nat triangle (mkSketchLayer true) (mkLonLat 4 4)
              (mkLonLat 4 9) (mkBounds 3 4 13 9))
    as (s1 & s2 & Hd & _ & Hm & Ha & _ & Hl); try reflexivity.
  exists s1, s2. split; [exact Hd|]. split; [exact Hm|].
  split; [rewrite Ha; reflexivity|]. rewrite Hl. reflexivity.
Defined.

Lemma callback_keeps_the_sketch_witness :
  exists s', callback "move" (Some [VPoint (mkPoint 0 10)]) watched_dragged
               = Ok tt s' /\
             log s' = log watched_dragged ++
                      [GeomClone 1%nat 3%nat; Fire "move" 4 [VGeometry 3%nat]].
Proof.
  destruct (heap watched_dragged !! 1%nat) as [g|] eqn:Hg; [|discriminate].
  eexists. split.
  - apply (callback_keeps_the_sketch watched_dragged "move"
             (Some [VPoint (mkPoint 0 10)]) 0%nat 4%nat 1%nat g);
      try reflexivity; try discriminate. exact Hg.
  - reflexivity.
Defined.

Lemma skipped_moves_leave_no_trace_witness :
  exists s1 s2,
    move (at_px 0 10) pressed = Ok tt s1 /\
    move (at_px 0 10) (steps [Move (at_px 10 0); Move (at_px 7 7)] pressed)
      = Ok tt s2 /\
    angle s2 = angle s1 /\ radius s2 = radius s1.
Proof.
  destruct (skipped_moves_leave_no_trace pressed [at_px 10 0; at_px 7 7]
              (at_px 0 10) 0%nat (mkSketchLayer true) (mkLonLat 0 10)
              (mkPoint 0 0) 1%nat
              (mkCollection [mkPoint 0 0; mkPoint 10 0; mkPoint 10 5] None))
    as (s1 & s2 & Hm1 & Hm2 & Ha & Hr & _); try reflexivity.
  { repeat constructor; eexists; reflexivity. }
  exists s1, s2. repeat split; assumption.
Defined.

End ProgramsOnReferenceHost.
